(** * LAS_CSV_Converter: a shallow embedding and its verified properties

    The development follows [LAS_CSV_Converter.py]: the scale/offset
    arithmetic of the point codec, the CSV header and row writer
    ([FileInfo.get_header], [las_to_csv]), the parser of the bulk
    response ([WebService.batch_call]), the column lookup
    ([extract_height]), the batch merge of the main script and the
    parameter overrides of [WebService.single_point].

    Python floats are IEEE binary64 numbers and are modelled by Rocq's
    primitive floats, which compute with the same rounding.  Python
    exceptions are modelled by an explicit [outcome] type. *)

From Stdlib Require Import ZArith QArith Qabs Qpower Lqa Floats Ascii String.
From stdpp Require Import base list strings gmap.

Set Warnings "-inexact-float".
Set Default Proof Using "Type".

Local Open Scope nat_scope.
Local Open Scope string_scope.
Local Open Scope list_scope.

(** ** Python exceptions and fallible computations *)

Module Py.

(** The exceptions that statements of the program can raise, the two
    error kinds that the specification names but no statement of the
    program raises, and the errors of external collaborators. *)
Inductive exn : Type :=
  | IndexError
  | ValueError
  | AttributeError
  | ConfigurationError
  | AlignmentError
  | External (name : string).

(** Python's exception hierarchy: [IndexError] derives from
    [LookupError]. *)
Definition is_LookupError (e : exn) : bool :=
  match e with
  | IndexError => true
  | _ => false
  end.

Inductive outcome (A : Type) : Type :=
  | Returns (a : A)
  | Raises (e : exn).
Arguments Returns {A} a.
Arguments Raises {A} e.

Definition bind {A B} (c : outcome A) (k : A -> outcome B) : outcome B :=
  match c with
  | Returns a => k a
  | Raises e => Raises e
  end.

(** [l[i]] on a Python sequence. *)
Definition getitem {A} (l : list A) (i : nat) : outcome A :=
  match l !! i with
  | Some a => Returns a
  | None => Raises IndexError
  end.

(** [l.pop(0)]: the first element and the remaining list. *)
Definition pop0 {A} (l : list A) : outcome (A * list A) :=
  match l with
  | [] => Raises IndexError
  | a :: l' => Returns (a, l')
  end.

(** [s.split(sep)] for a one-character separator: the fields between
    the separators, empty fields included; [cur] is the field being
    read. *)
Fixpoint split_from (sep : ascii) (cur : string) (s : string) : list string :=
  match s with
  | EmptyString => [cur]
  | String c s' =>
      if Ascii.eqb c sep then cur :: split_from sep EmptyString s'
      else split_from sep (cur +:+ String c EmptyString) s'
  end.

Definition split (sep : ascii) (s : string) : list string :=
  split_from sep EmptyString s.

Definition newline : ascii := "010"%char.
Definition comma : ascii := ","%char.

End Py.
Import Py.

#[global] Instance outcome_ret : MRet outcome := fun A a => Returns a.
#[global] Instance outcome_bind : MBind outcome := fun A B k c => bind c k.

(** ** The parser of the bulk response ([WebService.batch_call]) *)

Module Response.

(** The loop over the data rows: a row is appended when it has as many
    fields as the first row of the matrix.  The matrix is kept as the
    list of its rows and [row_data] as the one row it holds. *)
Fixpoint append_rows (matrix : list (list string)) (data : list string)
  : outcome (list (list string)) :=
  match data with
  | [] => Returns matrix
  | row :: data' =>
      let row_data := split comma row in
      first ← getitem matrix 0;
      if Nat.eqb (length first) (length row_data)
      then append_rows (matrix ++ [row_data]) data'
      else append_rows matrix data'
  end.

(** The part of [batch_call] after the request: [text] is the body of
    the response. *)
Definition parse_response (text : string) : outcome (list (list string)) :=
  let data := split newline text in
  '(header, data) ← pop0 data;
  let matrix := [split comma header] in
  append_rows matrix data.

End Response.

(** ** The scale/offset arithmetic of the point codec *)

Module Codec.

(** Python's arithmetic operators are duck-typed: the same expressions
    run on binary64 floats (what the LAS library and numpy supply) and
    on exact rationals.  [of_int] is the implicit conversion of an
    integer operand. *)
Class Arith (T : Type) : Type := {
  add : T -> T -> T;
  sub : T -> T -> T;
  mul : T -> T -> T;
  div : T -> T -> T;
  of_int : Z -> T
}.

(** The binary64 number nearest to an integer, ties to even: the
    conversion that Python and numpy apply to an integer operand.  It is
    exact below [2 ^ 53], so for the 32-bit raw values of a LAS file. *)
Definition float_of_Z (n : Z) : float :=
  SF2Prim (binary_normalize prec emax n 0 false).

#[global] Instance binary64 : Arith float := {|
  add := PrimFloat.add;
  sub := PrimFloat.sub;
  mul := PrimFloat.mul;
  div := PrimFloat.div;
  of_int := float_of_Z
|}.

#[global] Instance exact : Arith Q := {|
  add := Qplus;
  sub := Qminus;
  mul := Qmult;
  div := Qdiv;
  of_int := inject_Z
|}.

(** [( attribute * scale ) + offset], lines 345, 347 and 349; a raw
    integer [r] enters the product as [of_int r]. *)
Definition decode {T} `{Arith T} (attribute scale offset : T) : T :=
  add (mul attribute scale) offset.

(** [(height - offset) / scale], line 495. *)
Definition encode {T} `{Arith T} (height scale offset : T) : T :=
  div (sub height offset) scale.

(** Rounding to the nearest integer, as the specification words the
    encoding; the program has no such step.  Ties go to the even
    integer; infinities and NaN have no nearest integer. *)
Definition nearest_of_dyadic (m : positive) (e : Z) : Z :=
  if (0 <=? e)%Z then (Z.pos m * 2 ^ e)%Z
  else
    let k := (- e)%Z in
    let q := (Z.pos m / 2 ^ k)%Z in
    let r := (Z.pos m mod 2 ^ k)%Z in
    let half := (2 ^ (k - 1))%Z in
    if (r <? half)%Z then q
    else if (half <? r)%Z then (q + 1)%Z
    else if Z.even q then q else (q + 1)%Z.

Definition nearest_float (f : float) : option Z :=
  match Prim2SF f with
  | S754_zero _ => Some 0%Z
  | S754_finite s m e =>
      let n := nearest_of_dyadic m e in
      Some (if s then (- n)%Z else n)
  | S754_infinity _ => None
  | S754_nan => None
  end.

(** The encoding in the words of the specification. *)
Definition encode_spec_float (height scale offset : float) : option Z :=
  nearest_float (encode height scale offset).

End Codec.
Import Codec.

(** ** The rational number that a binary64 number stands for *)

Module Dyadic.

Definition SFfinite (x : spec_float) : bool :=
  match x with
  | S754_zero _ | S754_finite _ _ _ => true
  | S754_infinity _ | S754_nan => false
  end.

Definition signed (s : bool) (q : Q) : Q := if s then (- q)%Q else q.

(** The value of a finite number: its mantissa times the power of two
    of its exponent, with its sign.  The value given to an infinity
    and to NaN is not used. *)
Definition SFvalue (x : spec_float) : Q :=
  match x with
  | S754_finite s m e => signed s (inject_Z (Z.pos m) * 2 ^ e)%Q
  | _ => 0%Q
  end.

Definition finite (f : float) : bool := SFfinite (Prim2SF f).
Definition value (f : float) : Q := SFvalue (Prim2SF f).

End Dyadic.

(** ** The LAS file as the LAS library presents it *)

Module Las.

(** A Python number held by an array or written to the CSV. *)
Inductive num : Type :=
  | NInt (n : Z)
  | NFloat (f : float).

(** The number as an operand of a float operation. *)
Definition to_float (v : num) : float :=
  match v with
  | NInt n => of_int n
  | NFloat f => f
  end.

Record Header : Type := {
  offset : float * float * float;
  scale : float * float * float
}.

(** [point_format] lists the attribute names of a point record in
    order.  [points] is the library's array of records: iterating it
    yields one wrapper per point, and iterating a wrapper yields the
    point record itself, a sequence of stored attribute values (raw
    integers for the coordinates).  [las_X],
    [las_Y] and [las_Z] are the column views [X], [Y] and [Z]. *)
Record File : Type := {
  header : Header;
  point_format : list string;
  points : list (list (list num));
  las_X : list num;
  las_Y : list num;
  las_Z : list num
}.

(** The layout the library produces: every wrapper holds exactly one
    record, and every record has one value per attribute. *)
Definition well_formed (f : File) : Prop :=
  Forall (fun points_list =>
            length points_list = 1 /\
            Forall (fun record => length record = length (point_format f)) points_list)
         (points f).

(** A file of [records] in the library's layout. *)
Definition wrap_records (records : list (list Z)) : list (list (list num)) :=
  map (fun record => [map NInt record]) records.

End Las.
Import Las.

(** ** [FileInfo] and [LASFileManager.open_read_stream] *)

Record FileInfo : Type := {
  num_points : nat;
  x_offset : float;
  y_offset : float;
  z_offset : float;
  x_scale : float;
  y_scale : float;
  z_scale : float;
  header_size : Z;
  attributes : list string
}.

Definition open_read_stream (readStream : File) : FileInfo :=
  let '(xo, yo, zo) := offset (header readStream) in
  let '(xs, ys, zs) := scale (header readStream) in
  {| num_points := length (points readStream);
     x_offset := xo; y_offset := yo; z_offset := zo;
     x_scale := xs; y_scale := ys; z_scale := zs;
     header_size := Z.of_nat (length (point_format readStream));
     attributes := point_format readStream |}.

(** [FileInfo.get_header]: the loop over the attributes, with the
    counter [index] and the text [head] built so far. *)
Fixpoint get_header_loop (header_size : Z) (atts : list string)
    (index : Z) (head : string) : string :=
  match atts with
  | [] => head
  | att :: atts' =>
      let index := (index + 1)%Z in
      let head := head +:+ att in
      let head := if (index <? header_size)%Z then head +:+ "," else head in
      get_header_loop header_size atts' index head
  end.

Definition get_header (self : FileInfo) : string :=
  get_header_loop (header_size self) (attributes self) 0%Z EmptyString.

(** ** [las_to_csv] *)

Module Writer.
Section Writer.

(** Python's [str] on a number. *)
Variable str : num -> string.

(** [inFile.close()], line 370: the close of the LAS library on a
    stream opened for update. *)
Variable close : File -> outcome unit.

(** The loop over the attributes of one point record. *)
Fixpoint format_record (file_info : FileInfo) (record : list num)
    (index : nat) (line : string) : outcome string :=
  match record with
  | [] => Returns line
  | attribute :: record' =>
      name ← getitem (attributes file_info) index;
      let outValue :=
        if String.eqb name "X" then
          NFloat (decode (to_float attribute) (x_scale file_info) (x_offset file_info))
        else if String.eqb name "Y" then
          NFloat (decode (to_float attribute) (y_scale file_info) (y_offset file_info))
        else if String.eqb name "Z" then
          NFloat (decode (to_float attribute) (z_scale file_info) (z_offset file_info))
        else attribute in
      let line := line +:+ str outValue in
      let line :=
        if (Z.of_nat index <? header_size file_info - 1)%Z
        then line +:+ "," else line in
      format_record file_info record' (S index) line
  end.

(** [for points in points_list]: one written line per record.  [out]
    is the text written to the output file so far; the result is the
    text written when the loop ends or an exception stops it, and the
    outcome of the loop. *)
Fixpoint write_points_list (file_info : FileInfo)
    (points_list : list (list num)) (out : string) : string * outcome unit :=
  match points_list with
  | [] => (out, Returns tt)
  | record :: rest =>
      match format_record file_info record 0 EmptyString with
      | Returns line =>
          write_points_list file_info rest
            (out +:+ line +:+ String newline EmptyString)
      | Raises e => (out, Raises e)
      end
  end.

(** [for points_list in inFile.points]. *)
Fixpoint write_points (file_info : FileInfo)
    (pts : list (list (list num))) (out : string) : string * outcome unit :=
  match pts with
  | [] => (out, Returns tt)
  | points_list :: rest =>
      match write_points_list file_info points_list out with
      | (out, Returns _) => write_points file_info rest out
      | (out, Raises e) => (out, Raises e)
      end
  end.

(** [las_to_csv] on the opened stream: the text written to the output
    file and the outcome of the call.  The header and the rows are
    written, then the input stream is closed; the output file is closed
    last, when the close of the input has returned. *)
Definition las_to_csv (inFile : File) : string * outcome unit :=
  let file_info := open_read_stream inFile in
  let out := get_header file_info +:+ String newline EmptyString in
  match write_points file_info (points inFile) out with
  | (out, Returns _) => (out, close inFile)
  | (out, Raises e) => (out, Raises e)
  end.

End Writer.
End Writer.

(** The number of lines of a text: its line terminators. *)
Fixpoint count_lines (s : string) : nat :=
  match s with
  | EmptyString => 0
  | String c s' => (if Ascii.eqb c newline then 1 else 0) + count_lines s'
  end.

Fixpoint has_newline (s : string) : bool :=
  match s with
  | EmptyString => false
  | String c s' => Ascii.eqb c newline || has_newline s'
  end.

(** ** [extract_height] *)

(** The loop [for i in range(len(header))] that collects in [res] the
    indices of the columns named [height_code]. *)
Definition matching_step (header : list string) (height_code : string)
    (res : list nat) (i : nat) : list nat :=
  match header !! i with
  | Some name => if String.eqb name height_code then res ++ [i] else res
  | None => res
  end.

Definition matching_indices (header : list string) (height_code : string)
  : list nat :=
  fold_left (matching_step header height_code) (seq 0 (length header)) [].

(** [rows[:, j]]: the cell of column [j] in every row. *)
Fixpoint column (rows : list (list string)) (j : nat) : outcome (list string) :=
  match rows with
  | [] => Returns []
  | row :: rows' =>
      cell ← getitem row j;
      cells ← column rows' j;
      Returns (cell :: cells)
  end.

Definition extract_height (matrix : list (list string)) (height_code : string)
  : outcome (list string) :=
  header ← getitem (take 1 matrix) 0;
  let res := matching_indices header height_code in
  j ← getitem res 0;
  column (drop 1 matrix) j.

(** The first index of a column named [height_code], in the words of
    the specification. *)
Fixpoint first_index (height_code : string) (header : list string) : option nat :=
  match header with
  | [] => None
  | name :: header' =>
      if String.eqb name height_code then Some 0
      else S <$> first_index height_code header'
  end.

(** ** The batch merge of the main script (lines 487 to 499) *)

Module Merge.
Section Merge.

(** numpy's conversion of a text cell to a binary64 number; [None]
    when the text is not a number. *)
Variable astype_float : string -> option float.

(** The assignment [rwStream.Z = ...], a setter of the LAS library. *)
Variable set_Z : File -> list float -> outcome File.

(** [.astype(np.float)] on a column of text cells. *)
Fixpoint astype (cells : list string) : outcome (list float) :=
  match cells with
  | [] => Returns []
  | cell :: cells' =>
      match astype_float cell with
      | Some h => hs ← astype cells'; Returns (h :: hs)
      | None => Raises ValueError
      end
  end.

(** [for i in range(len(new_heights))]: the heights are rescaled in
    place, index by index. *)
Fixpoint rescale_loop (batch_file : FileInfo) (indices : list nat)
    (new_heights : list float) : outcome (list float) :=
  match indices with
  | [] => Returns new_heights
  | i :: indices' =>
      h ← getitem new_heights i;
      rescale_loop batch_file indices'
        (<[i := encode h (z_scale batch_file) (z_offset batch_file)]> new_heights)
  end.

(** [rwStream] is the copy of the input file opened for update,
    [matrix] the parsed response. *)
Definition batch_merge (matrix : list (list string)) (height_code : string)
    (rwStream : File) : outcome File :=
  let batch_file := open_read_stream rwStream in
  cells ← extract_height matrix height_code;
  new_heights ← astype cells;
  new_heights ← rescale_loop batch_file (seq 0 (length new_heights)) new_heights;
  set_Z rwStream new_heights.

End Merge.

End Merge.

(** ** The LAS library on a stream opened for update

    The setter of the column [Z] and the close of the stream belong to
    the LAS library, not to the program.  The program reaches them on
    lines 499, 370 and 442; they are described here as the library
    behaves there. *)

Module Laspy.

(** The integer part of a binary64 number: the fraction is dropped,
    towards zero.  Infinities and NaN have none. *)
Definition truncate (f : float) : option Z :=
  match Prim2SF f with
  | S754_zero _ => Some 0%Z
  | S754_finite s m e =>
      let n := if (0 <=? e)%Z then (Z.pos m * 2 ^ e)%Z
               else (Z.pos m / 2 ^ (- e))%Z in
      Some (if s then (- n)%Z else n)
  | S754_infinity _ => None
  | S754_nan => None
  end.

Definition int32_min : Z := (-2147483648)%Z.
Definition int32_max : Z := 2147483647%Z.

(** The conversion of a binary64 number to the 32-bit integer of a
    raw coordinate, as the assignment of a float array to an integer
    column performs it: the integer part when it fits, and the least
    32-bit integer otherwise. *)
Definition to_int32 (f : float) : Z :=
  match truncate f with
  | Some n =>
      if (int32_min <=? n)%Z && (n <=? int32_max)%Z then n else int32_min
  | None => int32_min
  end.

(** [stream.Z = column]: a column that has not one value per point
    record is refused and nothing is stored; otherwise every value is
    stored as a 32-bit integer, and the other columns are left as they
    are. *)
Definition set_Z (f : File) (column : list float) : outcome File :=
  if Nat.eqb (length column) (length (points f)) then
    Returns {| header := header f; point_format := point_format f;
               points := points f; las_X := las_X f; las_Y := las_Y f;
               las_Z := map (fun z => NInt (to_int32 z)) column |}
  else Raises (External "LaspyException").

(** [stream.close()]: the close recomputes the bounds of the header
    from the point records and fails when there is none. *)
Definition close (f : File) : outcome unit :=
  match points f with
  | [] => Raises ValueError
  | _ :: _ => Returns tt
  end.

End Laspy.

(** ** [WebService.single_point] *)

Module Service.

Inductive pyval : Type :=
  | PStr (s : string)
  | PNum (f : float).

Record WebService : Type := {
  service_url : string;
  model : string;
  frame : string;
  epoch : string;
  tocsv : bool;
  lang : string;
  conversion : string;
  projection : string;
  westpos : string
}.

(** [WebService.__init__]. *)
Definition init (service_url model frame epoch : string) (tocsv : bool) : WebService :=
  {| service_url := service_url; model := model; frame := frame;
     epoch := epoch; tocsv := tocsv;
     lang := "en"; conversion := "on"; projection := "geo"; westpos := "true" |}.

Definition set_projection (v : string) (self : WebService) : WebService :=
  {| service_url := service_url self; model := model self; frame := frame self;
     epoch := epoch self; tocsv := tocsv self; lang := lang self;
     conversion := conversion self; projection := v; westpos := westpos self |}.
Definition set_lang (v : string) (self : WebService) : WebService :=
  {| service_url := service_url self; model := model self; frame := frame self;
     epoch := epoch self; tocsv := tocsv self; lang := v;
     conversion := conversion self; projection := projection self; westpos := westpos self |}.
Definition set_conversion (v : string) (self : WebService) : WebService :=
  {| service_url := service_url self; model := model self; frame := frame self;
     epoch := epoch self; tocsv := tocsv self; lang := lang self;
     conversion := v; projection := projection self; westpos := westpos self |}.
Definition set_westpos (v : string) (self : WebService) : WebService :=
  {| service_url := service_url self; model := model self; frame := frame self;
     epoch := epoch self; tocsv := tocsv self; lang := lang self;
     conversion := conversion self; projection := projection self; westpos := v |}.
Definition set_model (v : string) (self : WebService) : WebService :=
  {| service_url := service_url self; model := v; frame := frame self;
     epoch := epoch self; tocsv := tocsv self; lang := lang self;
     conversion := conversion self; projection := projection self; westpos := westpos self |}.
Definition set_frame (v : string) (self : WebService) : WebService :=
  {| service_url := service_url self; model := model self; frame := v;
     epoch := epoch self; tocsv := tocsv self; lang := lang self;
     conversion := conversion self; projection := projection self; westpos := westpos self |}.
Definition set_epoch (v : string) (self : WebService) : WebService :=
  {| service_url := service_url self; model := model self; frame := frame self;
     epoch := v; tocsv := tocsv self; lang := lang self;
     conversion := conversion self; projection := projection self; westpos := westpos self |}.

(** [v if v != None else current]. *)
Definition override (v : option string) (current : string) : string :=
  match v with
  | Some v => v
  | None => current
  end.

(** The overrides of [single_point], in the order of its assignments. *)
Record Overrides : Type := {
  o_projection : option string;
  o_lang : option string;
  o_conversion : option string;
  o_westpos : option string;
  o_model : option string;
  o_frame : option string;
  o_epoch : option string
}.

Definition no_overrides : Overrides :=
  {| o_projection := None; o_lang := None; o_conversion := None;
     o_westpos := None; o_model := None; o_frame := None; o_epoch := None |}.

(** Lines 236 to 242: the seven assignments to the fields of [self]. *)
Definition apply_overrides (self : WebService) (o : Overrides) : WebService :=
  let self := set_projection (override (o_projection o) (projection self)) self in
  let self := set_lang (override (o_lang o) (lang self)) self in
  let self := set_conversion (override (o_conversion o) (conversion self)) self in
  let self := set_westpos (override (o_westpos o) (westpos self)) self in
  let self := set_model (override (o_model o) (model self)) self in
  let self := set_frame (override (o_frame o) (frame self)) self in
  set_epoch (override (o_epoch o) (epoch self)) self.

(** Lines 245 to 261: the dictionary of request parameters, its keys
    inserted in the order of the dictionary display. *)
Definition request_data (self : WebService) (x y z : pyval) : gmap string pyval :=
  let data : gmap string pyval :=
    <["westpos" := PStr (westpos self)]>
    (<["z" := z]>
    (<["y" := y]>
    (<["x" := x]>
    (<["epoch" := PStr (epoch self)]>
    (<["frame" := PStr (frame self)]>
    (<["model" := PStr (model self)]>
    (<["westpos" := PStr (westpos self)]>
    (<["conversion" := PStr (conversion self)]>
    (<["proj" := PStr (projection self)]>
    (<["lang" := PStr (lang self)]> ∅)))))))))) in
  if String.eqb (projection self) "plan"
  then <["zone" := PStr "ON-9"]> data
  else data.

Section SinglePoint.

(** [requests.get(url, data)] and the text of its response. *)
Variable http_get : string -> gmap string pyval -> outcome string.

(** The call returns the object after the call and the outcome of the
    call.  [self.setServiceURL] is not a method of the class, so
    passing a [type] fails on the attribute lookup, before any
    assignment. *)
Definition single_point (self : WebService) (x y z : pyval)
    (type : option string) (o : Overrides) : WebService * outcome string :=
  match type with
  | Some _ => (self, Raises AttributeError)
  | None =>
      let self := apply_overrides self o in
      let data := request_data self x y z in
      (self, http_get (service_url self) data)
  end.

(** The object after a sequence of calls without a [type], each with
    its coordinates and its overrides. *)
Definition after_calls (self : WebService)
    (calls : list (pyval * pyval * pyval * Overrides)) : WebService :=
  foldl (fun self '(x, y, z, o) => fst (single_point self x y z None o))
        self calls.

End SinglePoint.

End Service.

(** ** Texts of numbers

    Python's [str] on a float and numpy's reading of a float from a
    text are library functions; the definitions of the program take
    them as parameters.  The examples use the two functions below: a
    reader of plain decimal literals, which returns the binary64 number
    nearest to the literal, and a printer with four decimals. *)

Module Text.

Definition digit_of (c : ascii) : option Z :=
  let n := nat_of_ascii c in
  if (48 <=? n)%nat && (n <=? 57)%nat then Some (Z.of_nat (n - 48)) else None.

(** [mantissa] is the number read so far without its point, [decimals]
    the number of digits read after the point, if one was read, and
    [digits] tells whether a digit was read. *)
Fixpoint scan (s : string) (mantissa : Z) (decimals : option nat)
    (digits : bool) : option (Z * nat) :=
  match s with
  | EmptyString =>
      if digits then Some (mantissa, default 0 decimals) else None
  | String c s' =>
      if Ascii.eqb c "."%char then
        match decimals with
        | None => scan s' mantissa (Some 0) digits
        | Some _ => None
        end
      else
        match digit_of c with
        | Some d => scan s' (mantissa * 10 + d)%Z (S <$> decimals) true
        | None => None
        end
  end.

(** A literal with at most 53 bits of mantissa and 22 decimals is the
    correctly rounded quotient of two exact binary64 numbers. *)
Definition parse_unsigned (s : string) : option float :=
  match scan s 0%Z None false with
  | Some (mantissa, decimals) =>
      if (mantissa <? 2 ^ 53)%Z && (decimals <=? 22)%nat
      then Some (PrimFloat.div (float_of_Z mantissa)
                               (float_of_Z (10 ^ Z.of_nat decimals)))
      else None
  | None => None
  end.

Definition parse_decimal (s : string) : option float :=
  match s with
  | String c s' =>
      if Ascii.eqb c "-"%char then PrimFloat.opp <$> parse_unsigned s'
      else parse_unsigned s
  | EmptyString => None
  end.

Definition show_digit (d : Z) : string :=
  String (ascii_of_nat (48 + Z.to_nat (d mod 10))) EmptyString.

(** The decimal digits of a natural number below [10 ^ width],
    [width] of them. *)
Fixpoint show_digits (width : nat) (n : Z) : string :=
  match width with
  | O => EmptyString
  | S width' => show_digits width' (n / 10) +:+ show_digit n
  end.

Fixpoint digits_needed (fuel : nat) (n : Z) : nat :=
  match fuel with
  | O => 1
  | S fuel' => if (n <? 10)%Z then 1 else S (digits_needed fuel' (n / 10))
  end.

Definition show_natural (n : Z) : string :=
  show_digits (digits_needed (Z.to_nat (Z.log2 n)) n) n.

Definition show_Z (n : Z) : string :=
  if (n <? 0)%Z then "-" +:+ show_natural (- n) else show_natural n.

Definition show_float (f : float) : string :=
  match nearest_float (PrimFloat.mul f 10000%float) with
  | Some n =>
      (if (n <? 0)%Z then "-" else EmptyString)
      +:+ show_natural (Z.abs n / 10000) +:+ "." +:+ show_digits 4 (Z.abs n mod 10000)
  | None => "nan"
  end.

Definition show_num (v : num) : string :=
  match v with
  | NInt n => show_Z n
  | NFloat f => show_float f
  end.

End Text.

(** A number compared with an integer, as Python's [==] does. *)
Definition num_eq_Z (v : num) (n : Z) : bool :=
  match v with
  | NInt m => Z.eqb m n
  | NFloat f => PrimFloat.eqb f (float_of_Z n)
  end.

(** ** Sample inputs

    The header values and the heights are those of the main script and
    of [csv_to_las]; the response tables are those of the scenarios of
    the specification. *)

Module Scenario.

Definition las_header : Header :=
  {| offset := (329999.8947, 4839000.0062, 0.0)%float;
     scale := (0.0001, 0.0001, 0.0001)%float |}.

(** Three points with the attributes [X], [Y] and [Z]. *)
Definition three_points : File :=
  {| header := las_header;
     point_format := ["X"; "Y"; "Z"];
     points := wrap_records [[0; 0; 6710]; [23391; -3190; 6170]; [264321; 426858; 4170]]%Z;
     las_X := [NInt 0; NInt 23391; NInt 264321];
     las_Y := [NInt 0; NInt (-3190); NInt 426858];
     las_Z := [NInt 6710; NInt 6170; NInt 4170] |}.

(** Two points, the target of a merge. *)
Definition two_points : File :=
  {| header := las_header;
     point_format := ["X"; "Y"; "Z"];
     points := wrap_records [[0; 0; 6710]; [23391; -3190; 6170]]%Z;
     las_X := [NInt 0; NInt 23391];
     las_Y := [NInt 0; NInt (-3190)];
     las_Z := [NInt 6710; NInt 6170] |}.

(** The same two points in a file whose scales are zero and negative. *)
Definition bad_scale : File :=
  {| header := {| offset := (329999.8947, 4839000.0062, 0.0)%float;
                  scale := (0.0, -0.0001, 0.0)%float |};
     point_format := ["X"; "Y"; "Z"];
     points := wrap_records [[0; 0; 6710]; [23391; -3190; 6170]]%Z;
     las_X := [NInt 0; NInt 23391];
     las_Y := [NInt 0; NInt (-3190)];
     las_Z := [NInt 6710; NInt 6170] |}.

Definition response_header : list string :=
  ["utm_e"; "utm_n"; "H2013"; "utm_z"].

Definition two_rows : list (list string) :=
  [["329999.8947"; "4839000.0062"; "0.67103"; "ON-9"];
   ["330002.2338"; "4838999.6872"; "0.617"; "ON-9"]].


(** The text of a response with two rows of four fields and one row of
    three. *)
Definition response_text : string :=
  "utm_e,utm_n,H2013,utm_z" +:+ String newline "329999.8947,4839000.0062,0.67103,ON-9"
  +:+ String newline "330002.2338,4838999.6872,0.617"
  +:+ String newline "330026.3268,4839042.692,0.417,ON-9"
  +:+ String newline EmptyString.

End Scenario.

(** * Further parts of the program *)

(** ** Texts and tables *)

Fixpoint has_char (c : ascii) (s : string) : bool :=
  match s with
  | EmptyString => false
  | String c' s' => Ascii.eqb c' c || has_char c s'
  end.

(** The lines of a text file written line by line: every line is
    followed by a line break. *)
Fixpoint unlines (lines : list string) : string :=
  match lines with
  | [] => EmptyString
  | line :: lines' => line +:+ String newline EmptyString +:+ unlines lines'
  end.

(** The text of a table: the cells of a row joined by commas, the rows
    joined by line breaks. *)
Definition csv_text (table : list (list string)) : string :=
  String.concat (String newline EmptyString) (map (String.concat ",") table).

(** A cell that can be written to a CSV as it is: it holds neither a
    comma nor a line break. *)
Definition clean (cell : string) : Prop :=
  has_char comma cell = false /\ has_char newline cell = false.

Fixpoint count_char (c : ascii) (s : string) : nat :=
  match s with
  | EmptyString => 0
  | String c' s' => (if Ascii.eqb c' c then 1 else 0) + count_char c s'
  end.

(** ** The rows of [las_to_csv], cell by cell *)

(** The value written for the attribute called [name]. *)
Definition csv_value (file_info : FileInfo) (name : string) (attribute : num) : num :=
  if String.eqb name "X" then
    NFloat (decode (to_float attribute) (x_scale file_info) (x_offset file_info))
  else if String.eqb name "Y" then
    NFloat (decode (to_float attribute) (y_scale file_info) (y_offset file_info))
  else if String.eqb name "Z" then
    NFloat (decode (to_float attribute) (z_scale file_info) (z_offset file_info))
  else attribute.

Definition csv_cells (str : num -> string) (file_info : FileInfo)
    (names : list string) (record : list num) : list string :=
  zip_with (fun name attribute => str (csv_value file_info name attribute))
           names record.

(** The names that [las_to_csv] and [las_to_csv_sub] decode. *)
Definition coordinate_name (name : string) : Prop :=
  name = "X" \/ name = "Y" \/ name = "Z".

(** The decoded coordinates of a record whose first three attributes
    are X, Y and Z, as texts. *)
Definition xyz_cells (str : num -> string) (file_info : FileInfo)
    (record : list num) : list string :=
  match record with
  | x :: y :: z :: _ =>
      [str (NFloat (decode (to_float x) (x_scale file_info) (x_offset file_info)));
       str (NFloat (decode (to_float y) (y_scale file_info) (y_offset file_info)));
       str (NFloat (decode (to_float z) (z_scale file_info) (z_offset file_info)))]
  | _ => []
  end.

(** ** [las_to_csv_sub] *)

Module SubWriter.
Section SubWriter.

Variable str : num -> string.

(** [inFile.close()], line 442. *)
Variable close : File -> outcome unit.

(** The loop over the attributes of one point record.  The value
    written is a decoded coordinate or the zone, a text, which [str]
    leaves as it is; [None] stands for the [break]. *)
Fixpoint format_record (file_info : FileInfo) (utm_zone : string)
    (record : list num) (index : nat) (line : string) : outcome string :=
  match record with
  | [] => Returns line
  | attribute :: record' =>
      name ← getitem (attributes file_info) index;
      let outValue : option string :=
        if String.eqb name "X" then
          Some (str (NFloat (decode (to_float attribute)
                               (x_scale file_info) (x_offset file_info))))
        else if String.eqb name "Y" then
          Some (str (NFloat (decode (to_float attribute)
                               (y_scale file_info) (y_offset file_info))))
        else if String.eqb name "Z" then
          Some (str (NFloat (decode (to_float attribute)
                               (z_scale file_info) (z_offset file_info))))
        else if Nat.eqb index 3 then Some utm_zone
        else None in
      match outValue with
      | None => Returns line
      | Some text =>
          let line := line +:+ text in
          let line := if Nat.ltb index 3 then line +:+ "," else line in
          format_record file_info utm_zone record' (S index) line
      end
  end.

Fixpoint write_points_list (file_info : FileInfo) (utm_zone : string)
    (points_list : list (list num)) (out : string) : string * outcome unit :=
  match points_list with
  | [] => (out, Returns tt)
  | record :: rest =>
      match format_record file_info utm_zone record 0 EmptyString with
      | Returns line =>
          write_points_list file_info utm_zone rest
            (out +:+ line +:+ String newline EmptyString)
      | Raises e => (out, Raises e)
      end
  end.

Fixpoint write_points (file_info : FileInfo) (utm_zone : string)
    (pts : list (list (list num))) (out : string) : string * outcome unit :=
  match pts with
  | [] => (out, Returns tt)
  | points_list :: rest =>
      match write_points_list file_info utm_zone points_list out with
      | (out, Returns _) => write_points file_info utm_zone rest out
      | (out, Raises e) => (out, Raises e)
      end
  end.

(** [las_to_csv_sub] on the opened stream: the text written to the
    output file and the outcome of the call, which ends with the close
    of the input stream (line 442) and then of the output file. *)
Definition las_to_csv_sub (inFile : File) (utm_zone : string)
  : string * outcome unit :=
  let file_info := open_read_stream inFile in
  let out := "utm_e,utm_n,height,utm_z" +:+ String newline EmptyString in
  match write_points file_info utm_zone (points inFile) out with
  | (out, Returns _) => (out, close inFile)
  | (out, Raises e) => (out, Raises e)
  end.

End SubWriter.
End SubWriter.

(** ** [WebService.setConversionType] and [WebService.batch_call] *)

Module Batch.
Import Service.

Definition upload_url : string :=
  "https://webapp.geod.nrcan.gc.ca/CSRS/tools/GPSH/upload".
Definition CGG2013a_url : string :=
  "https://webapp.geod.nrcan.gc.ca/CSRS/tools/GPSH/CGG2013a".
Definition HT2_0_CGG2013a_url : string :=
  "https://webapp.geod.nrcan.gc.ca/CSRS/tools/GPSH/HT2_0_CGG2013a".

Definition set_service_url (v : string) (self : WebService) : WebService :=
  {| service_url := v; model := model self; frame := frame self;
     epoch := epoch self; tocsv := tocsv self; lang := lang self;
     conversion := conversion self; projection := projection self;
     westpos := westpos self |}.

(** The object after the call and the value returned. *)
Definition setConversionType (self : WebService) (type projection : string)
  : WebService * string :=
  let self :=
    if String.eqb type "batch" then set_service_url upload_url self
    else if String.eqb type "CGG2013a" then set_service_url CGG2013a_url self
    else if String.eqb type "HT2_0_CGG2013a" then
      set_service_url HT2_0_CGG2013a_url self
    else self in
  let self := set_projection projection self in
  (self, service_url self).

Section BatchCall.

(** [requests.post(url, data=..., files={'file': ...})]: the text of
    the response for the form fields and the content of the file sent. *)
Variable http_post : string -> gmap string pyval -> string -> outcome string.

(** The files are a map from names to contents.  Opening a missing
    file for reading fails; writing a file replaces its content.  The
    call returns the object and the files after the call, and its
    outcome. *)
Definition batch_call (self : WebService) (files : gmap string string)
    (in_file : string)
  : WebService * gmap string string * outcome (list (list string)) :=
  let self := fst (setConversionType self "batch" (conversion self)) in
  let post_fields : gmap string pyval :=
    <["epoch" := PStr (epoch self)]>
    (<["frame" := PStr (frame self)]>
    (<["model" := PStr (model self)]> ∅)) in
  match files !! in_file with
  | None => (self, files, Raises (External "IOError"))
  | Some content =>
      match http_post (service_url self) post_fields content with
      | Raises e => (self, files, Raises e)
      | Returns text =>
          let files := if tocsv self then <["output.csv" := text]> files else files in
          (self, files, Response.parse_response text)
      end
  end.

End BatchCall.
End Batch.

(** ** [CSVFileManager] *)

Module Csv.
Section Csv.

(** The type of a coordinate: a text when it is read from a CSV file, a
    number when the caller supplies it. *)
Variable A : Type.

Record CSVFileManager : Type := {
  X_points : list A;
  Y_points : list A;
  Z_points : list A
}.

(** The buffers of [__init__]. *)
Definition init : CSVFileManager :=
  {| X_points := []; Y_points := []; Z_points := [] |}.

Definition add_point (self : CSVFileManager) (x y z : A) : CSVFileManager :=
  {| X_points := X_points self ++ [x];
     Y_points := Y_points self ++ [y];
     Z_points := Z_points self ++ [z] |}.

(** [load_points] over the rows that the reader yields: the object
    after the call and the outcome of the call. *)
Fixpoint load_points (self : CSVFileManager) (readStream : list (list A))
  : CSVFileManager * outcome unit :=
  match readStream with
  | [] => (self, Returns tt)
  | row :: rest =>
      match getitem row 0, getitem row 1, getitem row 2 with
      | Returns x, Returns y, Returns z => load_points (add_point self x y z) rest
      | Raises e, _, _ => (self, Raises e)
      | _, Raises e, _ => (self, Raises e)
      | _, _, Raises e => (self, Raises e)
      end
  end.

End Csv.

Arguments X_points {A} _.
Arguments Y_points {A} _.
Arguments Z_points {A} _.
Arguments init {A}.
Arguments add_point {A} _ _ _ _.
Arguments load_points {A} _ _.

(** Line 125 of [set_header_info]: [_major, _minor = _version.split(".")]. *)
Definition version_parts (_version : string) : outcome (string * string) :=
  match split "."%char _version with
  | [_major; _minor] => Returns (_major, _minor)
  | _ => Raises ValueError
  end.

(** [s[:n]]. *)
Fixpoint string_take (n : nat) (s : string) : string :=
  match n, s with
  | S n', String c s' => String c (string_take n' s')
  | _, _ => EmptyString
  end.

Fixpoint spaces (n : nat) : string :=
  match n with
  | O => EmptyString
  | S n' => String " "%char (spaces n')
  end.

(** Lines 132 and 133 of [set_header_info]:
    ['{:<32}'.format(s[:32])], the first 32 characters of [s], then
    spaces up to 32 characters. *)
Definition identifier32 (s : string) : string :=
  let head := string_take 32 s in
  head +:+ spaces (32 - String.length head).

End Csv.

(** ** Further sample inputs *)

Module Sample.

(** Two points of a file with the first five attributes of the LAS
    point formats. *)
Definition five_attributes : File :=
  {| header := Scenario.las_header;
     point_format := ["X"; "Y"; "Z"; "intensity"; "flag_byte"];
     points := wrap_records [[0; 0; 6710; 120; 9]; [23391; -3190; 6170; 95; 9]]%Z;
     las_X := [NInt 0; NInt 23391];
     las_Y := [NInt 0; NInt (-3190)];
     las_Z := [NInt 6710; NInt 6170] |}.

(** Two rows of a response whose first height, 0.67107, is 6710.7
    steps of 0.0001. *)
Definition rows_6710_7 : list (list string) :=
  [["329999.8947"; "4839000.0062"; "0.67107"; "ON-9"];
   ["330002.2338"; "4838999.6872"; "0.617"; "ON-9"]].

(** The service object of the main script. *)
Definition wbservice : Service.WebService :=
  Service.init EmptyString "HT2_0_CGG2013a" "NAD83%28CSRS%29" "1997-01-01" false.

(** A service that answers the upload with the response of the
    scenarios, and a service that answers a single point with a fixed
    text. *)
Definition http_post (url : string) (fields : gmap string Service.pyval)
    (content : string) : outcome string :=
  if String.eqb url Batch.upload_url then Returns Scenario.response_text
  else Raises (External "HTTPError").

Definition http_get (url : string) (data : gmap string Service.pyval)
  : outcome string :=
  Returns "<response/>".

Definition files : gmap string string :=
  {["prewb.temp.csv" := "utm_e,utm_n,height,utm_z"]}.

(** The overrides of a call that passes the projection [plan] only. *)
Definition plan : Service.Overrides :=
  {| Service.o_projection := Some "plan"; Service.o_lang := None;
     Service.o_conversion := None; Service.o_westpos := None;
     Service.o_model := None; Service.o_frame := None;
     Service.o_epoch := None |}.

End Sample.

(** * Properties *)

(** ** Texts *)

Lemma append_cons (c : ascii) (s t : string) :
  String c s +:+ t = String c (s +:+ t).
Proof. reflexivity. Qed.

Lemma append_nil_r (s : string) : s +:+ EmptyString = s.
Proof.
  induction s as [|c s IH]; [done |]. rewrite append_cons. congruence.
Qed.

Lemma append_assoc (s t u : string) : (s +:+ t) +:+ u = s +:+ (t +:+ u).
Proof.
  induction s as [|c s IH]; [done |]. rewrite !append_cons. congruence.
Qed.

Lemma count_lines_append (s t : string) :
  count_lines (s +:+ t) = count_lines s + count_lines t.
Proof.
  induction s as [|c s IH]; [done |].
  rewrite append_cons. simpl. rewrite IH. lia.
Qed.

Lemma count_lines_no_newline (s : string) :
  has_newline s = false -> count_lines s = 0.
Proof.
  induction s as [|c s IH]; simpl; [done |].
  destruct (Ascii.eqb c newline); simpl; [done | auto].
Qed.

Lemma has_newline_append (s t : string) :
  has_newline (s +:+ t) = has_newline s || has_newline t.
Proof.
  induction s as [|c s IH]; [done |].
  rewrite append_cons. simpl. rewrite IH. by rewrite orb_assoc.
Qed.

(** ** Splitting and the response parser *)

Lemma split_from_cons sep cur s :
  exists first rest, split_from sep cur s = first :: rest.
Proof.
  revert cur. induction s as [|c s IH]; intros cur; simpl.
  - by exists cur, [].
  - destruct (Ascii.eqb c sep); [by eexists _, _ | apply IH].
Qed.

Lemma append_rows_filter header acc data :
  Response.append_rows (header :: acc) data
  = Returns (header :: acc ++
               filter (fun row => length row = length header)
                      (map (split comma) data)).
Proof.
  revert acc. induction data as [|row data IH]; intros acc; simpl.
  - by rewrite app_nil_r.
  - rewrite filter_cons. unfold mbind, outcome_bind; simpl.
    destruct (Nat.eqb_spec (length header) (length (split comma row))) as [E|E].
    + rewrite (IH (acc ++ [split comma row])).
      rewrite decide_True by done. by rewrite <- app_assoc.
    + rewrite IH. by rewrite decide_False by done.
Qed.

(** C6. For every response text the parser returns, without an
    exception, the header (the fields of the first line) followed by
    exactly those later lines whose field count is the header's, in
    their order; every data row of the result has the column count of
    the header. *)
Theorem parse_response_rows_match_header (text : string) :
  exists first_line data header rows,
    split newline text = first_line :: data /\
    header = split comma first_line /\
    rows = filter (fun row => length row = length header)
                  (map (split comma) data) /\
    Response.parse_response text = Returns (header :: rows) /\
    Forall (fun row => length row = length header) rows.
Proof.
  destruct (split_from_cons newline EmptyString text) as (first_line & data & E).
  change (split_from newline EmptyString text) with (split newline text) in E.
  eexists first_line, data, _, _.
  split; [done |]. split; [reflexivity |]. split; [reflexivity |]. split.
  - unfold Response.parse_response. rewrite E.
    simpl. by rewrite (append_rows_filter _ []).
  - apply list.Forall_forall. intros row Hin.
    by apply list_elem_of_filter in Hin as [? _].
Qed.

Example scenario3_parse :
  Response.parse_response Scenario.response_text
  = Returns [Scenario.response_header;
             ["329999.8947"; "4839000.0062"; "0.67103"; "ON-9"];
             ["330026.3268"; "4839042.692"; "0.417"; "ON-9"]].
Proof. reflexivity. Qed.

(** ** The header line *)

Lemma get_header_loop_concat atts : forall index head,
  get_header_loop (index + Z.of_nat (length atts)) atts index head
  = head +:+ String.concat "," atts.
Proof.
  induction atts as [|att atts IH]; intros index head.
  - simpl. by rewrite append_nil_r.
  - replace (index + Z.of_nat (length (att :: atts)))%Z
      with ((index + 1) + Z.of_nat (length atts))%Z by (simpl length; lia).
    cbn [get_header_loop]. destruct atts as [|att' atts].
    + replace (index + 1 + Z.of_nat (length (@nil string)))%Z
        with (index + 1)%Z by (simpl length; lia).
      by rewrite Z.ltb_irrefl.
    + assert ((index + 1 <? index + 1 + Z.of_nat (length (att' :: atts)))%Z = true)
        as -> by (apply Z.ltb_lt; simpl length; lia).
      rewrite IH.
      change (String.concat "," (att :: att' :: atts))
        with (att +:+ "," +:+ String.concat "," (att' :: atts)).
      by rewrite !append_assoc.
Qed.

Lemma get_header_concat (readStream : File) :
  get_header (open_read_stream readStream)
  = String.concat "," (point_format readStream).
Proof.
  unfold get_header, open_read_stream.
  destruct (offset (header readStream)) as [[xo yo] zo].
  destruct (scale (header readStream)) as [[xs ys] zs]. simpl.
  pose proof (get_header_loop_concat (point_format readStream) 0 EmptyString) as E.
  by rewrite Z.add_0_l in E.
Qed.

(** C8. The header line of a file is its attribute names joined by
    commas, in their order ([String.concat] puts the separator between
    consecutive names only, so no delimiter trails). *)
Theorem get_header_joins_attributes (readStream : File) :
  get_header (open_read_stream readStream)
  = String.concat "," (point_format readStream).
Proof. apply get_header_concat. Qed.

(** ** The column lookup *)

Section ColumnLookup.

Variable height_code : string.

Lemma first_index_Some header j :
  first_index height_code header = Some j ->
  header !! j = Some height_code /\
  (forall i, i < j -> header !! i ≠ Some height_code).
Proof.
  revert j. induction header as [|name header IH]; intros j; simpl; [done |].
  destruct (String.eqb_spec name height_code) as [->|Hne].
  - intros [= <-]. split; [done | lia].
  - destruct (first_index height_code header) as [j'|]; [|done].
    intros [= <-]. destruct (IH j' eq_refl) as [Hj Hbefore].
    split; [done |]. intros [|i] Hi; simpl.
    + congruence.
    + apply Hbefore. lia.
Qed.

Lemma first_index_None header :
  first_index height_code header = None -> height_code ∉ header.
Proof.
  induction header as [|name header IH]; simpl.
  - intros _. apply not_elem_of_nil.
  - destruct (String.eqb_spec name height_code) as [->|Hne]; [done |].
    destruct (first_index height_code header); [done |].
    intros _. apply not_elem_of_cons. split; [congruence | by apply IH].
Qed.

Lemma step_keeps_head header indices : forall res j,
  res !! 0 = Some j -> fold_left (matching_step header height_code) indices res !! 0 = Some j.
Proof.
  induction indices as [|i indices IH]; intros res j Hres; simpl; [done |].
  apply IH. unfold matching_step.
  destruct (header !! i) as [name|]; [|done].
  destruct (String.eqb name height_code); [|done].
  by apply lookup_app_l_Some.
Qed.

Lemma matching_from suffix : forall prefix,
  fold_left (matching_step (prefix ++ suffix) height_code)
            (seq (length prefix) (length suffix)) [] !! 0
  = (fun j => length prefix + j) <$> first_index height_code suffix.
Proof.
  induction suffix as [|name suffix IH]; intros prefix; [done |].
  cbn [length seq fold_left first_index]. unfold matching_step at 2.
  rewrite list_lookup_middle by done.
  destruct (String.eqb name height_code).
  - rewrite (step_keeps_head _ _ _ (length prefix)) by done.
    simpl. f_equal. lia.
  - specialize (IH (prefix ++ [name])).
    rewrite <- app_assoc, length_app in IH. simpl in IH.
    rewrite Nat.add_1_r in IH. rewrite IH.
    destruct (first_index height_code suffix); simpl; [f_equal; lia | done].
Qed.

Lemma matching_indices_head header :
  matching_indices header height_code !! 0 = first_index height_code header.
Proof.
  pose proof (matching_from header []) as E. simpl in E.
  unfold matching_indices. rewrite E.
  by destruct (first_index height_code header).
Qed.

Lemma column_cells j rows :
  Forall (fun row : list string => j < length row) rows ->
  exists cells,
    column rows j = Returns cells /\
    Forall2 (fun (row : list string) cell => row !! j = Some cell) rows cells.
Proof.
  induction 1 as [|row rows Hrow _ (cells & E & Hcells)]; simpl.
  - by exists [].
  - destruct (lookup_lt_is_Some_2 row j Hrow) as [cell Hcell].
    exists (cell :: cells). unfold getitem. rewrite Hcell.
    unfold mbind, outcome_bind; simpl. rewrite E. simpl.
    split; [done | by constructor].
Qed.

(** C7. The lookup compares names exactly (case included).  When the
    header names the height code, [extract_height] returns the cells
    of the first column so named, one per data row and in row order;
    when it does not, the lookup raises [IndexError], which is a
    [LookupError]. *)
Theorem extract_height_first_match (header : list string)
    (rows : list (list string))
    (Hrect : Forall (fun row => length row = length header) rows) :
  match first_index height_code header with
  | Some j =>
      header !! j = Some height_code /\
      (forall i, i < j -> header !! i ≠ Some height_code) /\
      exists cells,
        extract_height (header :: rows) height_code = Returns cells /\
        Forall2 (fun (row : list string) cell => row !! j = Some cell) rows cells
  | None =>
      (height_code ∉ header) /\
      extract_height (header :: rows) height_code = Raises IndexError /\
      is_LookupError IndexError = true
  end.
Proof.
  unfold extract_height. simpl. unfold getitem.
  rewrite matching_indices_head.
  destruct (first_index height_code header) as [j|] eqn:Hfirst.
  - destruct (first_index_Some _ _ Hfirst) as [Hj Hbefore].
    split; [done |]. split; [done |].
    rewrite drop_0. apply column_cells.
    apply lookup_lt_Some in Hj.
    eapply Forall_impl; [exact Hrect |]. simpl. intros row ->. done.
  - split; [by apply first_index_None |]. split; reflexivity.
Qed.

End ColumnLookup.

(** ** The CSV writer *)

Lemma has_newline_concat (names : list string) :
  Forall (fun name => has_newline name = false) names ->
  has_newline (String.concat "," names) = false.
Proof.
  induction 1 as [|name names Hname Hnames IH]; [done |].
  destruct names as [|name' names]; [done |].
  change (String.concat "," (name :: name' :: names))
    with (name +:+ "," +:+ String.concat "," (name' :: names)).
  rewrite !has_newline_append, Hname, IH. done.
Qed.

(** ** The batch merge *)

Section MergeFacts.

Variable astype_float : string -> option float.
Variable set_Z : File -> list float -> outcome File.

Lemma astype_heights (cells : list string) (heights : list float) :
  Forall2 (fun cell h => astype_float cell = Some h) cells heights ->
  Merge.astype astype_float cells = Returns heights.
Proof.
  induction 1 as [|cell h cells heights Hcell _ IH]; simpl; [done |].
  rewrite Hcell, IH. done.
Qed.

Lemma astype_raises (cells : list string) (e : exn) :
  Merge.astype astype_float cells = Raises e -> e = ValueError.
Proof.
  induction cells as [|cell cells IH]; simpl; [done |].
  destruct (astype_float cell); [|congruence].
  destruct (Merge.astype astype_float cells); simpl; [done |].
  intros [= <-]. by apply IH.
Qed.

(** The loop invariant: the heights before [i] are rescaled, the
    others are as they were. *)
Lemma rescale_loop_invariant batch_file (todo : list float) :
  forall done_ : list float,
    let rescale h := encode h (z_scale batch_file) (z_offset batch_file) in
    Merge.rescale_loop batch_file (seq (length done_) (length todo))
                       (map rescale done_ ++ todo)
    = Returns (map rescale (done_ ++ todo)).
Proof.
  induction todo as [|h todo IH]; intros done_ rescale.
  - simpl. by rewrite !app_nil_r.
  - cbn [length seq Merge.rescale_loop]. unfold getitem.
    rewrite <- (length_map rescale done_) at 1.
    rewrite list_lookup_middle by done.
    unfold mbind, outcome_bind; simpl.
    rewrite insert_app_r_alt by (rewrite length_map; lia).
    rewrite length_map, Nat.sub_diag. simpl.
    specialize (IH (done_ ++ [h])). simpl in IH.
    rewrite length_app, map_app in IH. simpl in IH.
    rewrite Nat.add_1_r, <- !app_assoc in IH. exact IH.
Qed.

Lemma rescale_loop_map batch_file (heights : list float) :
  Merge.rescale_loop batch_file (seq 0 (length heights)) heights
  = Returns (map (fun h => encode h (z_scale batch_file) (z_offset batch_file))
                 heights).
Proof. apply (rescale_loop_invariant batch_file heights []). Qed.

(** What the merge does when the lookup and the conversion succeed:
    one call of the setter, with one rescaled height per data row. *)
Lemma batch_merge_calls_setter (header : list string)
    (rows : list (list string)) (height_code : string) (j : nat)
    (heights : list float) (rwStream : File) :
  Forall (fun row => length row = length header) rows ->
  first_index height_code header = Some j ->
  Forall2 (fun (row : list string) h =>
             exists cell, row !! j = Some cell /\ astype_float cell = Some h)
          rows heights ->
  Merge.batch_merge astype_float set_Z (header :: rows) height_code rwStream
  = set_Z rwStream
      (map (fun h => encode h (z_scale (open_read_stream rwStream))
                            (z_offset (open_read_stream rwStream)))
           heights).
Proof.
  intros Hrect Hfirst Hheights.
  assert (j < length header) as Hj.
  { apply first_index_Some in Hfirst as [Hj _]. by apply lookup_lt_Some in Hj. }
  destruct (column_cells j rows) as (cells & Ecells & Hcells).
  { eapply Forall_impl; [exact Hrect |]. simpl. by intros row ->. }
  unfold Merge.batch_merge, extract_height. simpl. unfold getitem.
  rewrite matching_indices_head, Hfirst. rewrite drop_0.
  unfold mbind, outcome_bind; simpl. rewrite Ecells. simpl.
  rewrite (astype_heights cells heights).
  - simpl. by rewrite rescale_loop_map.
  - clear -Hcells Hheights. revert heights Hheights.
    induction Hcells as [|row cell rows cells Hcell _ IH];
      intros heights Hheights; inversion Hheights as [|? h ? hs (c & Hc & Hh) Hrest];
      subst; constructor; [congruence | by apply IH].
Qed.

Lemma column_raises rows j e :
  column rows j = Raises e -> e = IndexError.
Proof.
  induction rows as [|row rows IH]; simpl; [done |].
  unfold getitem. destruct (row !! j); simpl; [|congruence].
  destruct (column rows j); simpl; [done |]. intros [= <-]. by apply IH.
Qed.

Lemma extract_height_raises matrix height_code e :
  extract_height matrix height_code = Raises e -> e = IndexError.
Proof.
  unfold extract_height, getitem.
  destruct (take 1 matrix !! 0); simpl; [|congruence].
  destruct (matching_indices _ _ !! 0); simpl; [|congruence].
  apply column_raises.
Qed.

(** The exceptions of the merge are those of the lookup, of the
    conversion and of the setter. *)
Lemma batch_merge_raises matrix height_code rwStream e :
  Merge.batch_merge astype_float set_Z matrix height_code rwStream = Raises e ->
  e = IndexError \/ e = ValueError \/ exists zs, set_Z rwStream zs = Raises e.
Proof.
  unfold Merge.batch_merge.
  destruct (extract_height matrix height_code) as [cells|e'] eqn:Ecells; simpl.
  - destruct (Merge.astype astype_float cells) as [heights|e'] eqn:Eheights; simpl.
    + rewrite rescale_loop_map. simpl. eauto.
    + intros [= <-]. right; left. by eapply astype_raises.
  - intros [= <-]. left. by eapply extract_height_raises.
Qed.

End MergeFacts.

(** ** The sample printer writes no line break *)

Lemma show_digit_one_line (d : Z) : has_newline (Text.show_digit d) = false.
Proof.
  unfold Text.show_digit.
  assert (Z.to_nat (d mod 10) < 10) as Hk
    by (pose proof (Z.mod_pos_bound d 10); lia).
  revert Hk. generalize (Z.to_nat (d mod 10)). intros k Hk.
  do 10 (destruct k as [|k]; [reflexivity |]). lia.
Qed.

Lemma show_digits_one_line (width : nat) : forall n,
  has_newline (Text.show_digits width n) = false.
Proof.
  induction width as [|width IH]; intros n; [done |].
  cbn [Text.show_digits].
  by rewrite has_newline_append, IH, show_digit_one_line.
Qed.

Lemma show_Z_one_line (n : Z) : has_newline (Text.show_Z n) = false.
Proof.
  unfold Text.show_Z, Text.show_natural.
  destruct (n <? 0)%Z; rewrite ?has_newline_append, show_digits_one_line; done.
Qed.

Lemma show_num_one_line (v : num) : has_newline (Text.show_num v) = false.
Proof.
  destruct v as [n|f]; [apply show_Z_one_line |].
  unfold Text.show_num, Text.show_float, Text.show_natural.
  destruct (nearest_float _) as [n|]; [|done].
  rewrite !has_newline_append, !show_digits_one_line.
  by destruct (n <? 0)%Z.
Qed.

(** ** The merge: the claims *)

(** C1 (amended). For a target of [n] points and a response of [n]
    data rows whose header names the height code, the merge returns
    the target with every Z value equal to the quotient
    [(height - offsetZ) / scaleZ] of the height of its row, computed in
    binary64 and converted to a 32-bit integer by dropping its
    fraction (it is not rounded to the nearest integer), and with X
    and Y as they were. *)
Theorem batch_merge_replaces_Z
    (astype_float : string -> option float)
    (header : list string) (rows : list (list string))
    (height_code : string) (j : nat) (heights : list float) (rwStream : File)
    (Hrect : Forall (fun row => length row = length header) rows)
    (Hfirst : first_index height_code header = Some j)
    (Hheights :
       Forall2 (fun (row : list string) h =>
                  exists cell, row !! j = Some cell /\ astype_float cell = Some h)
               rows heights)
    (Hrows : length rows = length (points rwStream)) :
  exists f,
    Merge.batch_merge astype_float Laspy.set_Z (header :: rows) height_code rwStream
    = Returns f /\
    las_Z f
    = map (fun h => NInt (Laspy.to_int32
                            (encode h (z_scale (open_read_stream rwStream))
                                      (z_offset (open_read_stream rwStream)))))
          heights /\
    length (las_Z f) = length (points rwStream) /\
    las_X f = las_X rwStream /\ las_Y f = las_Y rwStream.
Proof.
  rewrite (batch_merge_calls_setter astype_float Laspy.set_Z header rows
             height_code j heights rwStream Hrect Hfirst Hheights).
  assert (length heights = length (points rwStream)) as Hlen.
  { rewrite <- Hrows. symmetry. by eapply Forall2_length. }
  unfold Laspy.set_Z. rewrite length_map, Hlen, Nat.eqb_refl.
  eexists. split; [reflexivity |]. simpl.
  split; [by rewrite map_map |]. split; [by rewrite !length_map | done].
Qed.

Lemma batch_merge_replaces_Z_witness :
  exists f,
    Merge.batch_merge Text.parse_decimal Laspy.set_Z
      (Scenario.response_header :: Sample.rows_6710_7) "H2013" Scenario.two_points
    = Returns f /\
    las_Z f
    = map (fun h => NInt (Laspy.to_int32
                            (encode h (z_scale (open_read_stream Scenario.two_points))
                                      (z_offset (open_read_stream Scenario.two_points)))))
          [0.67107; 0.617]%float /\
    length (las_Z f) = length (points Scenario.two_points) /\
    las_X f = las_X Scenario.two_points /\ las_Y f = las_Y Scenario.two_points.
Proof.
  apply (batch_merge_replaces_Z Text.parse_decimal
           Scenario.response_header Sample.rows_6710_7 "H2013" 2
           [0.67107; 0.617]%float Scenario.two_points).
  - repeat constructor.
  - reflexivity.
  - repeat constructor; eexists; (split; [reflexivity | vm_compute; reflexivity]).
  - reflexivity.
Defined.

(** C1 as stated fails: for a height of 0.67107, with scale 0.0001
    and offset 0, the quotient is 6710.7 and the Z value stored is
    6710, while the nearest integer is 6711. *)
Lemma batch_merge_stores_truncated_quotient :
  exists f,
    Merge.batch_merge Text.parse_decimal Laspy.set_Z
      (Scenario.response_header :: Sample.rows_6710_7) "H2013" Scenario.two_points
    = Returns f /\
    las_Z f = [NInt 6710; NInt 6170] /\
    encode_spec_float 0.67107 0.0001 0.0 = Some 6711%Z /\
    num_eq_Z (NInt 6710) 6711 = false.
Proof.
  eexists. split; [vm_compute; reflexivity |].
  split; [vm_compute; reflexivity |].
  split; vm_compute; reflexivity.
Qed.



(** ** The codec *)

(** *** Powers of two and the number of binary digits *)

Section Pow2.
Local Open Scope Q_scope.

Lemma pow2_pos (e : Z) : 0 < 2 ^ e.
Proof. by apply Qpower_0_lt. Qed.

Lemma pow2_add (a b : Z) : 2 ^ (a + b) == 2 ^ a * 2 ^ b.
Proof. by apply Qpower_plus. Qed.

Lemma pow2_le (a b : Z) : (a <= b)%Z -> 2 ^ a <= 2 ^ b.
Proof. intros H. apply Qpower_le_compat_l; [done | by unfold Qle]. Qed.

Lemma pow2_lt_inv (a b : Z) : 2 ^ a < 2 ^ b -> (a < b)%Z.
Proof.
  intros H. destruct (Z.lt_ge_cases a b) as [|Hge]; [done |].
  apply pow2_le in Hge. lra.
Qed.

Lemma pow2_Z (e : Z) : (0 <= e)%Z -> inject_Z (2 ^ e) == 2 ^ e.
Proof. intros H. by rewrite Zpower_Qpower. Qed.

Lemma inject_Z_le (a b : Z) : (a <= b)%Z -> inject_Z a <= inject_Z b.
Proof. by rewrite <- Zle_Qle. Qed.

End Pow2.

Section Digits.
Local Open Scope Z_scope.

Lemma Zdigits2_log2 (m : Z) : (0 < m)%Z -> Zdigits2 m = (Z.log2 m + 1)%Z.
Proof.
  destruct m as [|p|p]; try done. intros _.
  assert (forall q, digits2_pos q = Pos.size q) as Hsize
    by (induction q; simpl; congruence).
  destruct p; simpl; rewrite ?Hsize; lia.
Qed.

Lemma Zdigits2_bounds (m : Z) :
  (0 < m)%Z -> (2 ^ (Zdigits2 m - 1) <= m < 2 ^ Zdigits2 m)%Z.
Proof.
  intros H. rewrite Zdigits2_log2 by done.
  replace (Z.log2 m + 1 - 1)%Z with (Z.log2 m) by lia.
  apply Z.log2_spec in H. by rewrite Z.add_1_r.
Qed.

Lemma Zdigits2_unique (m k : Z) :
  (1 <= k)%Z -> (2 ^ (k - 1) <= m < 2 ^ k)%Z -> Zdigits2 m = k.
Proof.
  intros Hk H.
  assert (0 < m)%Z by (pose proof (Z.pow_pos_nonneg 2 (k - 1)); lia).
  rewrite Zdigits2_log2 by done.
  rewrite (Z.log2_unique m (k - 1)); [lia | lia |].
  by replace (Z.succ (k - 1)) with k by lia.
Qed.

Lemma Zdigits2_nonneg (m : Z) : (0 <= Zdigits2 m)%Z.
Proof. by destruct m. Qed.

Lemma Zdigits2_le (m k : Z) : (0 <= k)%Z -> (0 <= m < 2 ^ k)%Z -> (Zdigits2 m <= k)%Z.
Proof.
  intros Hk [H0 H]. destruct (Z.eq_dec m 0) as [->|]; [done |].
  rewrite Zdigits2_log2 by lia.
  apply Z.log2_lt_pow2 in H; lia.
Qed.

End Digits.

(** *** The right shift and the rounding of a mantissa *)

Section Shr.
Local Open Scope Z_scope.

Lemma shr_record_of_loc_m (m : Z) (l : location) : shr_m (shr_record_of_loc m l) = m.
Proof. by destruct l as [|[]]. Qed.

Lemma shr_1_m (mrs : shr_record) :
  (0 <= shr_m mrs)%Z -> shr_m (shr_1 mrs) = (shr_m mrs / 2)%Z.
Proof.
  destruct mrs as [m r s]. simpl. intros H.
  destruct m as [|[p|p|]|p]; try done; simpl.
  - rewrite Pos2Z.inj_xI. apply (Z.div_unique _ 2 _ 1); lia.
  - rewrite Pos2Z.inj_xO. apply (Z.div_unique _ 2 _ 0); lia.
Qed.

Lemma iter_shr_m (p : positive) : forall mrs,
  (0 <= shr_m mrs)%Z ->
  shr_m (SpecFloat.iter_pos shr_1 p mrs) = (shr_m mrs / 2 ^ Z.pos p)%Z.
Proof.
  induction p as [p IH|p IH|]; intros mrs H; cbn [SpecFloat.iter_pos].
  - assert (0 <= shr_m (shr_1 mrs))%Z as H1
      by (rewrite shr_1_m by done; by apply Z.div_pos).
    assert (0 <= shr_m (SpecFloat.iter_pos shr_1 p (shr_1 mrs)))%Z as H2
      by (rewrite IH by done; apply Z.div_pos; lia).
    rewrite IH, IH, shr_1_m by done.
    rewrite !Z.div_div by lia. f_equal.
    replace (Z.pos p~1) with (1 + Z.pos p + Z.pos p) by lia.
    rewrite !Z.pow_add_r by lia. lia.
  - assert (0 <= shr_m (SpecFloat.iter_pos shr_1 p mrs))%Z as H2
      by (rewrite IH by done; apply Z.div_pos; lia).
    rewrite IH, IH by done.
    rewrite !Z.div_div by lia. f_equal.
    replace (Z.pos p~0) with (Z.pos p + Z.pos p) by lia.
    by rewrite !Z.pow_add_r by lia.
  - rewrite shr_1_m by done. done.
Qed.

Lemma shr_m_shift (mrs : shr_record) (e n : Z) :
  (0 <= shr_m mrs)%Z -> (0 <= n)%Z ->
  shr_m (fst (shr mrs e n)) = (shr_m mrs / 2 ^ n)%Z /\
  snd (shr mrs e n) = (e + n)%Z.
Proof.
  intros Hm Hn. destruct n as [|p|p]; try done; simpl.
  - rewrite Z.div_1_r. split; [done | lia].
  - split; [|done]. by apply iter_shr_m.
Qed.

Lemma shr_nonpos (mrs : shr_record) (e n : Z) :
  (n <= 0)%Z -> shr mrs e n = (mrs, e).
Proof. destruct n; try done; lia. Qed.

Lemma round_nearest_even_range (m : Z) (l : location) :
  (m <= round_nearest_even m l <= m + 1)%Z.
Proof. destruct l as [|[]]; simpl; try lia. destruct (Z.even m); lia. Qed.

End Shr.

(** *** The rounding step of every operation

    [binary_round_aux] keeps the 53 leading digits of the mantissa, or
    the digits above the least exponent, and adds at most one unit in
    the last place. *)

Section RoundAux.
Local Open Scope Z_scope.

Lemma fexp_eq (e : Z) : fexp prec emax e = Z.max (e - 53) (-1074).
Proof. reflexivity. Qed.

Lemma binary_round_aux_shape (sx : bool) (mx ex : Z) (lx : location) :
  0 <= mx ->
  ex <= fexp prec emax (Zdigits2 mx + ex) ->
  fexp prec emax (Zdigits2 mx + ex) < 971 ->
  exists m1 : Z,
    mx / 2 ^ (fexp prec emax (Zdigits2 mx + ex) - ex) <= m1
      <= mx / 2 ^ (fexp prec emax (Zdigits2 mx + ex) - ex) + 1 /\
    (m1 = 0 /\ binary_round_aux prec emax sx mx ex lx = S754_zero sx \/
     exists (m : positive) (e : Z),
       binary_round_aux prec emax sx mx ex lx = S754_finite sx m e /\
       (Z.pos m = m1 /\ e = fexp prec emax (Zdigits2 mx + ex) \/
        2 * Z.pos m = m1 /\ e = fexp prec emax (Zdigits2 mx + ex) + 1)).
Proof.
  intros Hmx Hle Hmax.
  remember (fexp prec emax (Zdigits2 mx + ex)) as e1 eqn:He1.
  rewrite fexp_eq in He1.
  unfold binary_round_aux, shr_fexp. rewrite fexp_eq, <- He1.
  change (emax - prec) with 971.
  destruct (shr_m_shift (shr_record_of_loc mx lx) ex (e1 - ex)) as [Hm He];
    [by rewrite shr_record_of_loc_m | lia |].
  destruct (shr (shr_record_of_loc mx lx) ex (e1 - ex)) as [mrs' e'].
  simpl in Hm, He. subst e'. rewrite shr_record_of_loc_m in Hm.
  replace (ex + (e1 - ex)) with e1 by lia.
  pose proof (round_nearest_even_range (shr_m mrs') (loc_of_shr_record mrs')) as Hr.
  remember (round_nearest_even (shr_m mrs') (loc_of_shr_record mrs')) as m1 eqn:Hm1.
  rewrite Hm in Hr. clear Hm1 Hm mrs'.
  exists m1. split; [done |].
  assert (0 <= mx / 2 ^ (e1 - ex)) as Hlo0 by (apply Z.div_pos; lia).
  assert (mx / 2 ^ (e1 - ex) < 2 ^ 53) as Hlo.
  { apply Z.div_lt_upper_bound; [lia |].
    rewrite <- Z.pow_add_r by lia.
    destruct (Z.eq_dec mx 0) as [->|]; [lia |].
    pose proof (Zdigits2_bounds mx ltac:(lia)) as [_ Hd].
    eapply Z.lt_le_trans; [exact Hd |].
    apply Z.pow_le_mono_r; lia. }
  rewrite fexp_eq.
  destruct (Z.eq_dec m1 (2 ^ 53)) as [Hcarry|Hcarry].
  - right. subst m1. change (2 ^ 53) with 9007199254740992 in *.
    change (Zdigits2 9007199254740992) with 54.
    replace (Z.max (54 + e1 - 53) (-1074) - e1) with 1 by lia.
    cbn -[Z.leb Z.add Z.sub].
    assert ((e1 + 1 <=? 971) = true) as -> by (apply Z.leb_le; lia).
    eexists _, _. split; [reflexivity |]. right. done.
  - assert (Zdigits2 m1 <= 53) by (apply Zdigits2_le; lia).
    rewrite shr_nonpos by lia. simpl.
    destruct m1 as [|m|m]; [by left | | lia].
    right. assert ((e1 <=? 971) = true) as -> by (apply Z.leb_le; lia).
    eexists _, _. split; [reflexivity |]. left. done.
Qed.

End RoundAux.

Section RoundError.
Local Open Scope Q_scope.

Lemma magnitude_exponent (mx ex b : Z) (x : Q) :
  (0 < mx)%Z -> inject_Z mx * 2 ^ ex <= x -> x < 2 ^ b ->
  (Zdigits2 mx + ex <= b)%Z.
Proof.
  intros Hmx Hx Hb.
  pose proof (Zdigits2_bounds mx Hmx) as [Hd _].
  pose proof (Zdigits2_nonneg mx) as Hd0.
  assert (1 <= Zdigits2 mx)%Z as Hd1.
  { destruct mx; try done. simpl. lia. }
  apply inject_Z_le in Hd. rewrite pow2_Z in Hd by lia.
  pose proof (pow2_pos ex) as Hp.
  pose proof (pow2_add (Zdigits2 mx - 1) ex) as Hadd.
  assert (2 ^ (Zdigits2 mx - 1 + ex) < 2 ^ b) as Hlt by nra.
  apply pow2_lt_inv in Hlt. lia.
Qed.

(** The result of the rounding step is within one unit in the last
    place of the number [x] that is rounded: at most [2 ^ -52] times
    [x], or the least positive binary64 number. *)
Lemma binary_round_aux_error (sx : bool) (mx ex : Z) (lx : location) (x : Q) :
  (0 <= mx)%Z ->
  (ex <= fexp prec emax (Zdigits2 mx + ex))%Z ->
  inject_Z mx * 2 ^ ex <= x -> x <= inject_Z (mx + 1) * 2 ^ ex ->
  x < 2 ^ 1023 ->
  Dyadic.SFfinite (binary_round_aux prec emax sx mx ex lx) = true /\
  Qabs (Dyadic.SFvalue (binary_round_aux prec emax sx mx ex lx) - Dyadic.signed sx x)
  <= 2 ^ (-52) * x + 2 ^ (-1074).
Proof.
  intros Hmx Hle Hlow Hhigh Hmax.
  assert (mx = 0 \/ 0 < mx)%Z as Hcases by lia.
  assert (fexp prec emax (Zdigits2 mx + ex) < 971)%Z as He971.
  { rewrite fexp_eq in *. destruct Hcases as [->|Hpos]; [simpl in *; lia |].
    pose proof (magnitude_exponent mx ex 1023 x Hpos Hlow Hmax). lia. }
  destruct (binary_round_aux_shape sx mx ex lx Hmx Hle He971)
    as (m1 & [Hlo Hhi] & Hres).
  remember (fexp prec emax (Zdigits2 mx + ex)) as e1 eqn:He1.
  rewrite fexp_eq in He1.
  remember (mx / 2 ^ (e1 - ex))%Z as lo eqn:Hlo_def.
  pose proof (pow2_pos ex) as Hpex. pose proof (pow2_pos e1) as Hpe1.
  assert (2 ^ e1 == inject_Z (2 ^ (e1 - ex)) * 2 ^ ex) as Hsplit.
  { rewrite pow2_Z by lia. rewrite <- pow2_add. by replace (e1 - ex + ex)%Z with e1 by lia. }
  assert (0 < 2 ^ (e1 - ex))%Z as Hpn by (apply Z.pow_pos_nonneg; lia).
  assert (lo * 2 ^ (e1 - ex) <= mx)%Z as Hdiv1.
  { subst lo. pose proof (Z.mul_div_le mx (2 ^ (e1 - ex)) Hpn). lia. }
  assert (mx + 1 <= (lo + 1) * 2 ^ (e1 - ex))%Z as Hdiv2.
  { subst lo. pose proof (Z.mul_succ_div_gt mx (2 ^ (e1 - ex)) Hpn). lia. }
  apply inject_Z_le in Hdiv1, Hdiv2, Hlo, Hhi.
  rewrite inject_Z_mult in Hdiv1, Hdiv2.
  rewrite !inject_Z_plus in Hdiv2. rewrite inject_Z_plus in Hhi.
  rewrite inject_Z_plus in Hhigh.
  change (inject_Z 1) with 1 in *.
  assert (0 <= inject_Z lo) as Hlo0.
  { change 0 with (inject_Z 0). apply inject_Z_le. subst lo. apply Z.div_pos; lia. }
  assert (0 <= inject_Z mx) as Hmx0
    by (change 0 with (inject_Z 0); by apply inject_Z_le).
  set (T := inject_Z (2 ^ (e1 - ex))) in *.
  assert (0 < T) as HT.
  { change 0 with (inject_Z 0). unfold T. rewrite <- Zlt_Qlt. done. }
  assert (inject_Z lo * 2 ^ e1 <= x) as Hxlo by (rewrite Hsplit; nra).
  assert (x <= (inject_Z lo + 1) * 2 ^ e1) as Hxhi by (rewrite Hsplit; nra).
  assert (Dyadic.SFfinite (binary_round_aux prec emax sx mx ex lx) = true /\
          Dyadic.SFvalue (binary_round_aux prec emax sx mx ex lx)
          == Dyadic.signed sx (inject_Z m1 * 2 ^ e1)) as [Hfin Hval].
  { destruct Hres as [[-> ->]|(m & e & -> & [[<- ->]|[<- ->]])].
    - split; [done |]. unfold Dyadic.signed, Dyadic.SFvalue. change (inject_Z 0) with 0.
      destruct sx; lra.
    - split; [done |]. reflexivity.
    - split; [done |]. unfold Dyadic.SFvalue.
      destruct sx; unfold Dyadic.signed; rewrite pow2_add, inject_Z_mult;
        change (2 ^ 1) with 2; change (inject_Z 2) with 2; ring. }
  split; [done |].
  assert (2 ^ e1 <= 2 ^ (-52) * x + 2 ^ (-1074)) as Hulp.
  { assert (e1 = (-1074)%Z \/ (0 < mx)%Z /\ e1 = (Zdigits2 mx + ex - 53)%Z) as [->|[Hpos ->]].
    { destruct Hcases as [->|Hpos]; [simpl in *; lia | lia]. }
    - assert (0 <= x) by nra. lra.
    - pose proof (Zdigits2_bounds mx Hpos) as [Hd _].
      assert (1 <= Zdigits2 mx)%Z as Hd1 by (destruct mx; try done; simpl; lia).
      apply inject_Z_le in Hd. rewrite pow2_Z in Hd by lia.
      replace (Zdigits2 mx + ex - 53)%Z with (-52 + (Zdigits2 mx - 1 + ex))%Z by lia.
      rewrite pow2_add, pow2_add.
      pose proof (pow2_pos (Zdigits2 mx - 1)).
      assert (0 <= 2 ^ (-1074)) by lra.
      nra. }
  rewrite Hval. apply Qabs_Qle_condition.
  destruct sx; unfold Dyadic.signed; split; nra.
Qed.

End RoundError.

(** *** The four operations of the codec

    Each of them returns the exact result up to a relative error of
    [2 ^ -52] and an absolute error of [2 ^ -1074], when the exact
    result is below [2 ^ 1023]. *)

Section Operations.
Local Open Scope Q_scope.

Lemma Qabs_cases (x : Q) : 0 <= x /\ Qabs x == x \/ x <= 0 /\ Qabs x == - x.
Proof.
  destruct (Qlt_le_dec x 0) as [H|H].
  - right. split; [lra |]. apply Qabs_neg. lra.
  - left. split; [done |]. by apply Qabs_pos.
Qed.

Lemma valid_finite (s : bool) (m : positive) (e : Z) :
  valid_binary (S754_finite s m e) = true ->
  e = fexp prec emax (Zdigits2 (Z.pos m) + e) /\ (e <= 971)%Z /\
  (1 <= Zdigits2 (Z.pos m))%Z.
Proof.
  unfold valid_binary, bounded, canonical_mantissa. intros H.
  apply andb_prop in H as [H1 H2].
  apply Z.eqb_eq in H1. apply Z.leb_le in H2.
  change (emax - prec)%Z with 971%Z in H2. simpl. split; [done |]. split; [done | lia].
Qed.

Lemma signed_mult (sx sy : bool) (a b : Q) :
  Dyadic.signed sx a * Dyadic.signed sy b == Dyadic.signed (xorb sx sy) (a * b).
Proof. destruct sx, sy; unfold Dyadic.signed; simpl; ring. Qed.

Lemma Qabs_signed (s : bool) (a : Q) : 0 <= a -> Qabs (Dyadic.signed s a) == a.
Proof.
  intros H. destruct s; unfold Dyadic.signed.
  - rewrite Qabs_opp. by apply Qabs_pos.
  - by apply Qabs_pos.
Qed.

Lemma mantissa_pos (m : positive) (e : Z) : 0 < inject_Z (Z.pos m) * 2 ^ e.
Proof.
  pose proof (pow2_pos e).
  assert (0 < inject_Z (Z.pos m)) by (change 0 with (inject_Z 0); by rewrite <- Zlt_Qlt).
  nra.
Qed.

Lemma Zdigits2_mul (a b : Z) :
  (0 < a)%Z -> (0 < b)%Z -> (Zdigits2 a + Zdigits2 b - 1 <= Zdigits2 (a * b))%Z.
Proof.
  intros Ha Hb.
  pose proof (Zdigits2_bounds a Ha) as [Ha1 _].
  pose proof (Zdigits2_bounds b Hb) as [Hb1 _].
  assert (1 <= Zdigits2 a)%Z by (destruct a; try done; simpl; lia).
  assert (1 <= Zdigits2 b)%Z by (destruct b; try done; simpl; lia).
  rewrite (Zdigits2_log2 (a * b)) by lia.
  assert (Zdigits2 a - 1 + (Zdigits2 b - 1) <= Z.log2 (a * b))%Z; [|lia].
  apply Z.log2_le_pow2; [lia |].
  rewrite Z.pow_add_r by lia. nia.
Qed.

Ltac exact_case :=
  split; [done |];
  cbn [SF64mul SFmul SF64add SFadd SF64sub SFsub SF64div SFdiv Dyadic.SFvalue negb];
  match goal with
  | |- Qabs ?a <= _ * Qabs ?b + _ =>
      let H := fresh in
      assert (a == 0) as H
        by (repeat match goal with s : bool |- _ => destruct s end;
            unfold Dyadic.signed; cbn [negb]; ring);
      rewrite H; pose proof (Qabs_nonneg b); change (Qabs 0) with 0; lra
  end.

Lemma mul_error (x y : float) :
  Dyadic.finite x = true -> Dyadic.finite y = true ->
  Qabs (Dyadic.value x * Dyadic.value y) < 2 ^ 1023 ->
  Dyadic.finite (x * y) = true /\
  Qabs (Dyadic.value (x * y) - Dyadic.value x * Dyadic.value y)
  <= 2 ^ (-52) * Qabs (Dyadic.value x * Dyadic.value y) + 2 ^ (-1074).
Proof.
  unfold Dyadic.finite, Dyadic.value. rewrite mul_spec.
  pose proof (Prim2SF_valid x) as Vx. pose proof (Prim2SF_valid y) as Vy.
  destruct (Prim2SF x) as [sx| | |sx mx ex], (Prim2SF y) as [sy| | |sy my ey];
    try done; intros _ _ Hmag; try exact_case.
  apply valid_finite in Vx as (Hex & Hex971 & Hdx).
  apply valid_finite in Vy as (Hey & Hey971 & Hdy).
    cbn [SF64mul SFmul Dyadic.SFvalue] in *.
    assert (Dyadic.signed sx (inject_Z (Z.pos mx) * 2 ^ ex)
            * Dyadic.signed sy (inject_Z (Z.pos my) * 2 ^ ey)
            == Dyadic.signed (xorb sx sy) (inject_Z (Z.pos (mx * my)) * 2 ^ (ex + ey)))
      as Hprod.
    { destruct sx, sy; unfold Dyadic.signed; cbn [xorb];
        rewrite Pos2Z.inj_mul, inject_Z_mult, pow2_add; ring. }
    rewrite Hprod in *.
    pose proof (mantissa_pos (mx * my) (ex + ey)) as Hpos.
    rewrite Qabs_signed in * by lra.
    apply binary_round_aux_error; try done.
    + pose proof (Zdigits2_mul (Z.pos mx) (Z.pos my) ltac:(done) ltac:(done)) as Hd.
      rewrite <- Pos2Z.inj_mul in Hd.
      rewrite fexp_eq in *. lia.
    + lra.
    + rewrite inject_Z_plus. pose proof (pow2_pos (ex + ey)).
      change (inject_Z 1) with 1. nra.
Qed.

Lemma iter_xO (m d : positive) : Z.pos (Pos.iter xO m d) = (Z.pos m * 2 ^ Z.pos d)%Z.
Proof.
  induction d as [|d IH] using Pos.peano_ind.
  - simpl. lia.
  - rewrite Pos.iter_succ, Pos2Z.inj_xO, IH, Pos2Z.inj_succ, Z.pow_succ_r by lia. lia.
Qed.

Lemma shl_align_spec (mx : positive) (ex ex' : Z) :
  (ex' <= ex)%Z ->
  snd (shl_align mx ex ex') = ex' /\
  Z.pos (fst (shl_align mx ex ex')) = (Z.pos mx * 2 ^ (ex - ex'))%Z.
Proof.
  intros H. unfold shl_align. destruct (ex' - ex)%Z as [|p|p] eqn:E; simpl.
  - assert (ex = ex') as -> by lia. rewrite Z.sub_diag. simpl. lia.
  - lia.
  - split; [done |]. rewrite iter_xO. f_equal. f_equal. lia.
Qed.

Lemma shl_align_id (mx : positive) (ex ex' : Z) :
  (ex <= ex')%Z -> shl_align mx ex ex' = (mx, ex).
Proof.
  intros H. unfold shl_align. destruct (ex' - ex)%Z as [|p|p] eqn:E; try done. lia.
Qed.

Lemma shl_align_value (mx : positive) (ex ex' : Z) :
  (ex' <= ex)%Z ->
  inject_Z (Z.pos (fst (shl_align mx ex ex'))) * 2 ^ ex'
  == inject_Z (Z.pos mx) * 2 ^ ex.
Proof.
  intros H. destruct (shl_align_spec mx ex ex' H) as [_ ->].
  rewrite inject_Z_mult, pow2_Z by lia.
  rewrite <- Qmult_assoc, <- pow2_add. by replace (ex - ex' + ex')%Z with ex by lia.
Qed.

Lemma binary_round_error (sx : bool) (mx : positive) (ex : Z) :
  inject_Z (Z.pos mx) * 2 ^ ex < 2 ^ 1023 ->
  Dyadic.SFfinite (binary_round prec emax sx mx ex) = true /\
  Qabs (Dyadic.SFvalue (binary_round prec emax sx mx ex)
        - Dyadic.signed sx (inject_Z (Z.pos mx) * 2 ^ ex))
  <= 2 ^ (-52) * (inject_Z (Z.pos mx) * 2 ^ ex) + 2 ^ (-1074).
Proof.
  intros Hmag. unfold binary_round.
  change (Z.pos (digits2_pos mx)) with (Zdigits2 (Z.pos mx)).
  remember (fexp prec emax (Zdigits2 (Z.pos mx) + ex)) as f eqn:Hf.
  destruct (Z.le_gt_cases f ex) as [Hle|Hgt].
  - destruct (shl_align_spec mx ex f Hle) as [He Hm].
    pose proof (shl_align_value mx ex f Hle) as Hv.
    destruct (shl_align mx ex f) as [mz ez]. simpl in He, Hm, Hv. subst ez.
    assert (Zdigits2 (Z.pos mz) + f = Zdigits2 (Z.pos mx) + ex)%Z as Hd.
    { rewrite !Zdigits2_log2 by done. rewrite Hm, Z.log2_mul_pow2 by lia. lia. }
    apply binary_round_aux_error; try done.
    + rewrite Hd, <- Hf. lia.
    + lra.
    + rewrite inject_Z_plus. change (inject_Z 1) with 1.
      pose proof (pow2_pos f). nra.
  - rewrite shl_align_id by lia.
    apply binary_round_aux_error; try done.
    + lia.
    + lra.
    + rewrite inject_Z_plus. change (inject_Z 1) with 1.
      pose proof (pow2_pos ex). nra.
Qed.

Lemma binary_normalize_error (M ez : Z) :
  Qabs (inject_Z M * 2 ^ ez) < 2 ^ 1023 ->
  Dyadic.SFfinite (binary_normalize prec emax M ez false) = true /\
  Qabs (Dyadic.SFvalue (binary_normalize prec emax M ez false) - inject_Z M * 2 ^ ez)
  <= 2 ^ (-52) * Qabs (inject_Z M * 2 ^ ez) + 2 ^ (-1074).
Proof.
  intros Hmag. destruct M as [|p|p]; cbn [binary_normalize].
  - split; [done |]. cbn [Dyadic.SFvalue]. change (inject_Z 0) with 0.
    assert (0 - 0 * 2 ^ ez == 0) as -> by ring.
    assert (0 * 2 ^ ez == 0) as -> by ring. by vm_compute.
  - pose proof (mantissa_pos p ez) as Hpos.
    destruct (binary_round_error false p ez) as [Hfin Herr].
    { by rewrite Qabs_pos in Hmag by lra. }
    split; [done |]. rewrite (Qabs_pos (inject_Z (Z.pos p) * 2 ^ ez)) by lra.
    exact Herr.
  - pose proof (mantissa_pos p ez) as Hpos.
    assert (inject_Z (Z.neg p) * 2 ^ ez == - (inject_Z (Z.pos p) * 2 ^ ez)) as Hneg.
    { change (Z.neg p) with (- Z.pos p)%Z. rewrite inject_Z_opp. ring. }
    destruct (binary_round_error true p ez) as [Hfin Herr].
    { rewrite Hneg, Qabs_neg in Hmag by lra. lra. }
    split; [done |]. rewrite Hneg, (Qabs_neg (- _)) by lra.
    unfold Dyadic.signed in Herr.
    apply Qabs_Qle_condition in Herr. apply Qabs_Qle_condition. lra.
Qed.

Lemma aligned_sum (sx sy : bool) (mx my : positive) (ex ey : Z) (minus : bool) :
  inject_Z ((if minus then Z.sub else Z.add)
              (cond_Zopp sx (Z.pos (fst (shl_align mx ex (Z.min ex ey)))))
              (cond_Zopp sy (Z.pos (fst (shl_align my ey (Z.min ex ey))))))
  * 2 ^ Z.min ex ey
  == (if minus then Qminus else Qplus)
       (Dyadic.signed sx (inject_Z (Z.pos mx) * 2 ^ ex))
       (Dyadic.signed sy (inject_Z (Z.pos my) * 2 ^ ey)).
Proof.
  pose proof (shl_align_value mx ex (Z.min ex ey) ltac:(lia)) as Hx.
  pose proof (shl_align_value my ey (Z.min ex ey) ltac:(lia)) as Hy.
  destruct minus, sx, sy; unfold Dyadic.signed, cond_Zopp;
    rewrite <- ?Z.add_opp_r, ?inject_Z_plus, ?inject_Z_opp, <- Hx, <- Hy; ring.
Qed.

Lemma add_error (x y : float) :
  Dyadic.finite x = true -> Dyadic.finite y = true ->
  Qabs (Dyadic.value x + Dyadic.value y) < 2 ^ 1023 ->
  Dyadic.finite (x + y) = true /\
  Qabs (Dyadic.value (x + y) - (Dyadic.value x + Dyadic.value y))
  <= 2 ^ (-52) * Qabs (Dyadic.value x + Dyadic.value y) + 2 ^ (-1074).
Proof.
  unfold Dyadic.finite, Dyadic.value. rewrite add_spec.
  destruct (Prim2SF x) as [sx| | |sx mx ex], (Prim2SF y) as [sy| | |sy my ey];
    try done; intros _ _ Hmag.
  - destruct sx, sy; by vm_compute.
  - exact_case.
  - exact_case.
  - cbn [SF64add SFadd Dyadic.SFvalue] in *.
    pose proof (aligned_sum sx sy mx my ex ey false) as Hsum. cbv beta iota in Hsum.
    rewrite <- Hsum in *. by apply binary_normalize_error.
Qed.

Lemma sub_error (x y : float) :
  Dyadic.finite x = true -> Dyadic.finite y = true ->
  Qabs (Dyadic.value x - Dyadic.value y) < 2 ^ 1023 ->
  Dyadic.finite (x - y) = true /\
  Qabs (Dyadic.value (x - y) - (Dyadic.value x - Dyadic.value y))
  <= 2 ^ (-52) * Qabs (Dyadic.value x - Dyadic.value y) + 2 ^ (-1074).
Proof.
  unfold Dyadic.finite, Dyadic.value. rewrite sub_spec.
  destruct (Prim2SF x) as [sx| | |sx mx ex], (Prim2SF y) as [sy| | |sy my ey];
    try done; intros _ _ Hmag.
  - destruct sx, sy; by vm_compute.
  - exact_case.
  - exact_case.
  - cbn [SF64sub SFsub Dyadic.SFvalue] in *.
    pose proof (aligned_sum sx sy mx my ex ey true) as Hsum. cbv beta iota in Hsum.
    rewrite <- Hsum in *. by apply binary_normalize_error.
Qed.

Lemma div_core_spec (mx my : positive) (ex ey : Z) :
  exists (q e' : Z) (l : location),
    SFdiv_core_binary prec emax (Z.pos mx) ex (Z.pos my) ey = (q, e', l) /\
    (0 <= q)%Z /\
    (e' <= fexp prec emax (Zdigits2 q + e'))%Z /\
    inject_Z q * 2 ^ e'
    <= (inject_Z (Z.pos mx) * 2 ^ ex) / (inject_Z (Z.pos my) * 2 ^ ey) /\
    (inject_Z (Z.pos mx) * 2 ^ ex) / (inject_Z (Z.pos my) * 2 ^ ey)
    <= inject_Z (q + 1) * 2 ^ e'.
Proof.
  unfold SFdiv_core_binary.
  remember (Z.min (fexp prec emax (Zdigits2 (Z.pos mx) + ex - (Zdigits2 (Z.pos my) + ey)))
                  (ex - ey)) as e' eqn:He'.
  rewrite fexp_eq in He'.
  remember (ex - ey - e')%Z as sh eqn:Hsh.
  assert (0 <= sh)%Z as Hsh0 by lia.
  remember (match sh with
            | 0%Z => Z.pos mx
            | Z.pos _ => Z.shiftl (Z.pos mx) sh
            | Z.neg _ => 0%Z
            end) as m' eqn:Hm'.
  assert (m' = Z.pos mx * 2 ^ sh)%Z as Hm'eq.
  { subst m'. destruct sh as [|p|p] eqn:E; [simpl; lia | | lia].
    by rewrite Z.shiftl_mul_pow2. }
  clear Hm'.
  pose proof (Z_div_mod m' (Z.pos my) ltac:(done)) as Hdiv.
  destruct (Z.div_eucl m' (Z.pos my)) as [q r]. destruct Hdiv as [Hqr Hr].
  exists q, e', (new_location (Z.pos my) r). split; [done |].
  assert (0 < 2 ^ sh)%Z as Hpsh by (apply Z.pow_pos_nonneg; lia).
  assert (0 <= q)%Z as Hq0 by nia.
  split; [done |]. split.
  - rewrite fexp_eq.
    destruct (Z.le_gt_cases e' (-1074)) as [|Hbig]; [lia |].
    assert (53 <= Zdigits2 q)%Z; [|lia].
    pose proof (Zdigits2_bounds (Z.pos mx) ltac:(done)) as [Hd1 _].
    pose proof (Zdigits2_bounds (Z.pos my) ltac:(done)) as [_ Hd2].
    assert (1 <= Zdigits2 (Z.pos mx))%Z by (simpl; lia).
    assert (1 <= Zdigits2 (Z.pos my))%Z by (simpl; lia).
    assert (2 ^ (Zdigits2 (Z.pos my) + 52) <= 2 ^ (Zdigits2 (Z.pos mx) - 1) * 2 ^ sh)%Z
      as Hpow.
    { rewrite <- Z.pow_add_r by lia. apply Z.pow_le_mono_r; lia. }
    rewrite Z.pow_add_r in Hpow by lia.
    assert (2 ^ 52 <= q)%Z as Hq52.
    { change (2 ^ 52)%Z with 4503599627370496%Z in *.
      remember (2 ^ (Zdigits2 (Z.pos mx) - 1))%Z as A.
      remember (2 ^ Zdigits2 (Z.pos my))%Z as D.
      remember (2 ^ sh)%Z as S.
      assert (Z.pos my * 4503599627370496 < Z.pos my * (q + 1))%Z by nia.
      nia. }
    rewrite Zdigits2_log2 by lia.
    apply Z.log2_le_pow2 in Hq52; lia.
  - pose proof (pow2_pos e') as Hpe'. pose proof (pow2_pos ey) as Hpey.
    pose proof (pow2_pos ex) as Hpex.
    assert (2 ^ ex == inject_Z (2 ^ sh) * 2 ^ e' * 2 ^ ey) as Hex.
    { rewrite pow2_Z by lia. rewrite <- !pow2_add. by replace (sh + e' + ey)%Z with ex by lia. }
    assert (0 < inject_Z (Z.pos my)) as Hb
      by (change 0 with (inject_Z 0); by rewrite <- Zlt_Qlt).
    assert ((inject_Z (Z.pos mx) * 2 ^ ex) / (inject_Z (Z.pos my) * 2 ^ ey)
            == inject_Z m' * 2 ^ e' / inject_Z (Z.pos my)) as ->.
    { rewrite Hm'eq, inject_Z_mult, Hex. field. split; lra. }
    assert (inject_Z q * inject_Z (Z.pos my) <= inject_Z m') as H1.
    { rewrite <- inject_Z_mult. apply inject_Z_le. lia. }
    assert (inject_Z m' <= inject_Z (q + 1) * inject_Z (Z.pos my)) as H2.
    { rewrite <- inject_Z_mult. apply inject_Z_le. lia. }
    split.
    + apply Qle_shift_div_l; [done |]. nra.
    + apply Qle_shift_div_r; [done |]. nra.
Qed.

Lemma div_error (x y : float) :
  Dyadic.finite x = true -> Dyadic.finite y = true ->
  ~ Dyadic.value y == 0 ->
  Qabs (Dyadic.value x / Dyadic.value y) < 2 ^ 1023 ->
  Dyadic.finite (x / y) = true /\
  Qabs (Dyadic.value (x / y) - Dyadic.value x / Dyadic.value y)
  <= 2 ^ (-52) * Qabs (Dyadic.value x / Dyadic.value y) + 2 ^ (-1074).
Proof.
  unfold Dyadic.finite, Dyadic.value. rewrite div_spec.
  destruct (Prim2SF x) as [sx| | |sx mx ex], (Prim2SF y) as [sy| | |sy my ey];
    try done; intros _ _ Hy Hmag; try (destruct Hy; reflexivity).
  cbn [SF64div SFdiv Dyadic.SFvalue] in *.
    destruct (div_core_spec mx my ex ey) as (q & e' & l & -> & Hq0 & Hfexp & Hlo & Hhi).
    pose proof (mantissa_pos mx ex) as Hpx. pose proof (mantissa_pos my ey) as Hpy.
    assert (Dyadic.signed sx (inject_Z (Z.pos mx) * 2 ^ ex)
            / Dyadic.signed sy (inject_Z (Z.pos my) * 2 ^ ey)
            == Dyadic.signed (xorb sx sy)
                 ((inject_Z (Z.pos mx) * 2 ^ ex) / (inject_Z (Z.pos my) * 2 ^ ey)))
      as Hquot.
    { remember (inject_Z (Z.pos mx) * 2 ^ ex) as A.
      remember (inject_Z (Z.pos my) * 2 ^ ey) as B.
      destruct sx, sy; unfold Dyadic.signed; cbn [xorb]; field; lra. }
    assert (0 < (inject_Z (Z.pos mx) * 2 ^ ex) / (inject_Z (Z.pos my) * 2 ^ ey))
      as Hpos.
    { apply Qlt_shift_div_l; [done | lra]. }
    rewrite Hquot in *. rewrite Qabs_signed in Hmag by lra.
    rewrite Qabs_signed by lra.
    by apply binary_round_aux_error.
Qed.

Lemma binary_round_aux_exact (sx : bool) (m : positive) (e : Z) :
  fexp prec emax (Zdigits2 (Z.pos m) + e) = e -> (e <= 971)%Z ->
  binary_round_aux prec emax sx (Z.pos m) e loc_Exact = S754_finite sx m e.
Proof.
  intros Hf He. unfold binary_round_aux, shr_fexp.
  rewrite Hf, Z.sub_diag. cbn [shr shr_record_of_loc shr_m loc_of_shr_record
                                round_nearest_even].
  rewrite Hf, Z.sub_diag. cbn [shr shr_record_of_loc shr_m].
  change (emax - prec)%Z with 971%Z.
  by apply Z.leb_le in He as ->.
Qed.

Lemma binary_round_int (sx : bool) (p : positive) :
  (Z.pos p < 2 ^ 53)%Z ->
  exists (mz : positive) (f : Z),
    binary_round prec emax sx p 0 = S754_finite sx mz f /\
    valid_binary (S754_finite sx mz f) = true /\
    inject_Z (Z.pos mz) * 2 ^ f == inject_Z (Z.pos p).
Proof.
  intros Hp. unfold binary_round.
  change (Z.pos (digits2_pos p)) with (Zdigits2 (Z.pos p)).
  assert (1 <= Zdigits2 (Z.pos p) <= 53)%Z as Hd.
  { split; [simpl; lia |]. apply Zdigits2_le; lia. }
  rewrite fexp_eq.
  replace (Z.max (Zdigits2 (Z.pos p) + 0 - 53) (-1074))
    with (Zdigits2 (Z.pos p) - 53)%Z by lia.
  destruct (shl_align_spec p 0 (Zdigits2 (Z.pos p) - 53) ltac:(lia)) as [He Hm].
  pose proof (shl_align_value p 0 (Zdigits2 (Z.pos p) - 53) ltac:(lia)) as Hv.
  destruct (shl_align p 0 (Zdigits2 (Z.pos p) - 53)) as [mz f].
  cbn [fst snd] in He, Hm, Hv. subst f.
  assert (Zdigits2 (Z.pos mz) = 53%Z) as Hdz.
  { rewrite Zdigits2_log2, Hm, Z.log2_mul_pow2 by lia.
    rewrite Zdigits2_log2 by done. lia. }
  assert (fexp prec emax (Zdigits2 (Z.pos mz) + (Zdigits2 (Z.pos p) - 53))
          = (Zdigits2 (Z.pos p) - 53)%Z) as Hf
    by (rewrite fexp_eq; lia).
  exists mz, (Zdigits2 (Z.pos p) - 53)%Z.
  rewrite binary_round_aux_exact by (done || lia).
  split; [done |]. split.
  - unfold valid_binary, bounded, canonical_mantissa.
    change (Z.pos (digits2_pos mz)) with (Zdigits2 (Z.pos mz)).
    rewrite Hf, Z.eqb_refl. apply Z.leb_le. change (emax - prec)%Z with 971%Z. lia.
  - rewrite Hv. change (2 ^ 0) with 1. ring.
Qed.

(** An integer below [2 ^ 53] is converted exactly. *)
Lemma float_of_Z_exact (r : Z) :
  (Z.abs r < 2 ^ 53)%Z ->
  Dyadic.finite (float_of_Z r) = true /\ Dyadic.value (float_of_Z r) == inject_Z r.
Proof.
  intros Hr. unfold Dyadic.finite, Dyadic.value, float_of_Z.
  destruct r as [|p|p]; cbn [binary_normalize].
  - by rewrite Prim2SF_SF2Prim.
  - destruct (binary_round_int false p) as (mz & f & -> & Hvalid & Hv); [lia |].
    rewrite Prim2SF_SF2Prim by done. split; [done |]. exact Hv.
  - destruct (binary_round_int true p) as (mz & f & -> & Hvalid & Hv); [lia |].
    rewrite Prim2SF_SF2Prim by done. split; [done |].
    cbn [Dyadic.SFvalue Dyadic.signed]. rewrite Hv.
    change (Z.neg p) with (- Z.pos p)%Z. by rewrite inject_Z_opp.
Qed.




End Operations.

(** *** The round trip *)

Section RoundTrip.
Local Open Scope Q_scope.

Lemma error_interval (v x B : Q) :
  - B <= x <= B ->
  Qabs (v - x) <= 2 ^ (-52) * Qabs x + 2 ^ (-1074) ->
  x - (2 ^ (-52) * B + 2 ^ (-1074)) <= v <= x + (2 ^ (-52) * B + 2 ^ (-1074)).
Proof.
  intros [H1 H2] H. apply Qabs_Qle_condition in H as [H3 H4].
  destruct (Qabs_cases x) as [[? Hx]|[? Hx]]; rewrite Hx in *; split; lra.
Qed.

Lemma magnitude_below (x B : Q) :
  - B <= x <= B -> B < 2 ^ 1023 -> Qabs x < 2 ^ 1023.
Proof. intros [H1 H2] H. apply Qabs_Qlt_condition. split; lra. Qed.

Lemma quotient_interval (w s R c : Q) :
  0 < s -> R * s - c * s <= w <= R * s + c * s -> R - c <= w / s <= R + c.
Proof.
  intros Hs [H1 H2]. split.
  - apply Qle_shift_div_l; [done |]. lra.
  - apply Qle_shift_div_r; [done |]. lra.
Qed.

(** The quotient that line 495 computes from the decoded value of a
    raw integer [r] is a finite number less than a half away from
    [r]. *)
Lemma round_trip_quotient (r : Z) (s o : float) :
  (-2147483648 <= r <= 2147483647)%Z ->
  Dyadic.finite s = true -> Dyadic.finite o = true ->
  2 ^ (-900) <= Dyadic.value s <= 2 ^ 900 ->
  Qabs (Dyadic.value o) <= 2 ^ 50 * Dyadic.value s ->
  Dyadic.finite (encode (decode (of_int r) s o) s o) = true /\
  Qabs (Dyadic.value (encode (decode (of_int r) s o) s o) - inject_Z r) < 1 # 2.
Proof.
  intros Hr Hs Ho Hscale Hoffset.
  unfold encode, decode. cbn [add sub mul div of_int binary64].
  destruct (float_of_Z_exact r) as [Hf Hfv]; [lia |].
  destruct Hscale as [Hs1 Hs2].
  apply Qabs_Qle_condition in Hoffset as [Ho1 Ho2].
  assert (-2147483648 <= inject_Z r <= 2147483648) as [Hr1 Hr2].
  { split.
    - change (-2147483648) with (inject_Z (-2147483648)). apply inject_Z_le. lia.
    - change 2147483648 with (inject_Z 2147483648). apply inject_Z_le. lia. }
  remember (Dyadic.value s) as qs. remember (Dyadic.value o) as qo.
  remember (inject_Z r) as R.
  assert (0 < qs) as Hqs by lra.
  assert (- (2147483648 * qs) <= R * qs <= 2147483648 * qs) as Ht by (split; nra).
  destruct (mul_error (float_of_Z r) s Hf Hs) as [Hfp Hp].
  { rewrite Hfv, <- Heqqs. apply (magnitude_below _ (2147483648 * qs)); [done | lra]. }
  rewrite Hfv, <- Heqqs in Hp.
  apply (error_interval _ _ (2147483648 * qs)) in Hp; [|done].
  remember (Dyadic.value (float_of_Z r * s)) as vp.
  destruct (add_error (float_of_Z r * s) o Hfp Ho) as [Hfv' Hv].
  { rewrite <- Heqvp, <- Heqqo.
    apply (magnitude_below _ (2147483649 * qs + 2 ^ 50 * qs)); [split; lra | lra]. }
  rewrite <- Heqvp, <- Heqqo in Hv.
  apply (error_interval _ _ (2147483649 * qs + 2 ^ 50 * qs)) in Hv; [|split; lra].
  remember (Dyadic.value (float_of_Z r * s + o)) as vv.
  destruct (sub_error (float_of_Z r * s + o) o Hfv' Ho) as [Hfw Hw].
  { rewrite <- Heqvv, <- Heqqo.
    apply (magnitude_below _ (2147483650 * qs)); [split; lra | lra]. }
  rewrite <- Heqvv, <- Heqqo in Hw.
  apply (error_interval _ _ (2147483650 * qs)) in Hw; [|split; lra].
  remember (Dyadic.value (float_of_Z r * s + o - o)) as vw.
  assert (R - (1 # 3) <= vw / qs <= R + (1 # 3)) as Hquot
    by (apply quotient_interval; [done | split; lra]).
  destruct (div_error (float_of_Z r * s + o - o) s Hfw Hs) as [Hfq Hq].
  { rewrite <- Heqqs. lra. }
  { rewrite <- Heqvw, <- Heqqs.
    apply (magnitude_below _ 2147483649); [split; lra | lra]. }
  rewrite <- Heqvw, <- Heqqs in Hq.
  apply (error_interval _ _ 2147483649) in Hq; [|split; lra].
  split; [done |].
  apply Qabs_Qlt_condition. split; lra.
Qed.



(** The integer part of a finite number is the nearest integer in the
    direction of zero. *)
Lemma truncate_spec (q : float) :
  Dyadic.finite q = true ->
  exists n : Z,
    Laspy.truncate q = Some n /\
    (0 <= Dyadic.value q -> inject_Z n <= Dyadic.value q < inject_Z n + 1) /\
    (Dyadic.value q <= 0 -> inject_Z n - 1 < Dyadic.value q <= inject_Z n).
Proof.
  unfold Dyadic.finite, Dyadic.value, Laspy.truncate.
  destruct (Prim2SF q) as [s| | |s m e]; try done; intros _.
  - exists 0%Z. split; [done |]. cbn [Dyadic.SFvalue]. change (inject_Z 0) with 0.
    split; intros _; split; lra.
  - cbv zeta. cbn [Dyadic.SFvalue].
    remember (if (0 <=? e)%Z then (Z.pos m * 2 ^ e)%Z else (Z.pos m / 2 ^ (- e))%Z)
      as n0 eqn:Hn0.
    pose proof (mantissa_pos m e) as Hpos.
    assert (inject_Z n0 <= inject_Z (Z.pos m) * 2 ^ e < inject_Z n0 + 1) as [Hlo Hhi].
    { destruct (Z.leb_spec 0 e) as [He|He]; subst n0.
      - rewrite inject_Z_mult, pow2_Z by done. split; lra.
      - assert (0 < 2 ^ (- e))%Z as Hp by (apply Z.pow_pos_nonneg; lia).
        pose proof (Z.mul_div_le (Z.pos m) (2 ^ (- e)) Hp) as H1.
        pose proof (Z.mul_succ_div_gt (Z.pos m) (2 ^ (- e)) Hp) as H2.
        remember (Z.pos m / 2 ^ (- e))%Z as n0.
        assert (2 ^ e * inject_Z (2 ^ (- e)) == 1) as Hone.
        { rewrite pow2_Z by lia. rewrite <- pow2_add.
          by replace (e + - e)%Z with 0%Z by lia. }
        assert (0 < inject_Z (2 ^ (- e))) as HT
          by (change 0 with (inject_Z 0); by rewrite <- Zlt_Qlt).
        assert (inject_Z n0 * inject_Z (2 ^ (- e)) <= inject_Z (Z.pos m)) as H3.
        { rewrite <- inject_Z_mult. apply inject_Z_le. lia. }
        assert (inject_Z (Z.pos m) < (inject_Z n0 + 1) * inject_Z (2 ^ (- e))) as H4.
        { change 1 with (inject_Z 1). rewrite <- inject_Z_plus, <- inject_Z_mult.
          rewrite <- Zlt_Qlt. lia. }
        pose proof (pow2_pos e) as Hpe.
        remember (inject_Z (2 ^ (- e))) as T. remember (inject_Z (Z.pos m)) as M.
        remember (inject_Z n0) as N. remember (2 ^ e) as P.
        assert (M * P * T == M) as HM by (rewrite <- Qmult_assoc, Hone; ring).
        assert (N * T * P == N) as HN
          by (rewrite <- Qmult_assoc, (Qmult_comm T P), Hone; ring).
        split; nra. }
    destruct s; unfold Dyadic.signed.
    + exists (- n0)%Z. split; [done |]. rewrite inject_Z_opp.
      split; intros ?; split; lra.
    + exists n0. split; [done |]. split; intros ?; split; lra.
Qed.

(** X19. What the program stores has no rounding step: the quotient
    of line 495 is converted by the LAS library, which drops its
    fraction.  For a scale between [2 ^ -900] and [2 ^ 900], an offset
    of at most [2 ^ 50] scales and a raw integer [r] of 32 bits, the
    integer stored for the decoded value of [r] is [r] or its
    neighbour in the direction of zero. *)
Theorem stored_round_trip (r : Z) (s o : float)
    (Hr : (-2147483648 <= r <= 2147483647)%Z)
    (Hs : Dyadic.finite s = true) (Ho : Dyadic.finite o = true)
    (Hscale : 2 ^ (-900) <= Dyadic.value s <= 2 ^ 900)
    (Hoffset : Qabs (Dyadic.value o) <= 2 ^ 50 * Dyadic.value s) :
  (Z.abs (Laspy.to_int32 (encode (decode (of_int r) s o) s o) - r) <= 1)%Z /\
  (Z.abs (Laspy.to_int32 (encode (decode (of_int r) s o) s o)) <= Z.abs r)%Z.
Proof.
  destruct (round_trip_quotient r s o Hr Hs Ho Hscale Hoffset) as [Hfinite Hclose].
  destruct (truncate_spec _ Hfinite) as (n & Hn & Hpos & Hneg).
  unfold Laspy.to_int32. rewrite Hn.
  apply Qabs_Qlt_condition in Hclose as [H1 H2].
  remember (Dyadic.value (encode (decode (of_int r) s o) s o)) as v.
  assert (r - 1 <= n <= r + 1 /\ Z.abs n <= Z.abs r)%Z as [Hn1 Hn2].
  { destruct (Qlt_le_dec v 0) as [Hv|Hv].
    - destruct Hneg as [H3 H4]; [lra |].
      assert (inject_Z (r - 1) < inject_Z n) as H5.
      { unfold Z.sub. rewrite inject_Z_plus. change (inject_Z (- (1))) with (-1). lra. }
      assert (inject_Z n < inject_Z (r + 2)) as H6.
      { rewrite inject_Z_plus. change (inject_Z 2) with 2. lra. }
      assert (inject_Z r < inject_Z 1) as H7 by (change (inject_Z 1) with 1; lra).
      assert (inject_Z n < inject_Z 1) as H8 by (change (inject_Z 1) with 1; lra).
      rewrite <- Zlt_Qlt in H5, H6, H7, H8. lia.
    - destruct Hpos as [H3 H4]; [done |].
      assert (inject_Z (r - 2) < inject_Z n) as H5.
      { unfold Z.sub. rewrite inject_Z_plus. change (inject_Z (- (2))) with (-2). lra. }
      assert (inject_Z n < inject_Z (r + 1)) as H6.
      { rewrite inject_Z_plus. change (inject_Z 1) with 1. lra. }
      assert (inject_Z (-1) < inject_Z r) as H7 by (change (inject_Z (-1)) with (-1); lra).
      assert (inject_Z (-1) < inject_Z n) as H8 by (change (inject_Z (-1)) with (-1); lra).
      rewrite <- Zlt_Qlt in H5, H6, H7, H8. lia. }
  unfold Laspy.int32_min, Laspy.int32_max.
  assert ((-2147483648 <=? n)%Z && (n <=? 2147483647)%Z = true) as ->.
  { apply andb_true_intro. split; apply Z.leb_le; lia. }
  lia.
Qed.

Lemma stored_round_trip_witness :
  (Z.abs (Laspy.to_int32
            (encode (decode (of_int 1000) 0.0001 329999.8947) 0.0001 329999.8947)%float
          - 1000) <= 1)%Z /\
  (Z.abs (Laspy.to_int32
            (encode (decode (of_int 1000) 0.0001 329999.8947) 0.0001 329999.8947)%float)
   <= Z.abs 1000)%Z.
Proof.
  apply stored_round_trip.
  - lia.
  - reflexivity.
  - reflexivity.
  - split; vm_compute; discriminate.
  - vm_compute. discriminate.
Defined.

(** X20. The decoded value of a raw integer [r] of 32 bits, as lines
    345 to 349 compute it in binary64, is finite and differs from the
    exact [r * scale + offset] by at most [2 ^ -50] times the sum of
    the magnitudes of [r * scale] and of the offset, and [2 ^ -1072],
    for a scale of at most [2 ^ 900] and an offset of at most
    [2 ^ 950] in magnitude. *)
Theorem decode_accuracy (r : Z) (s o : float)
    (Hr : (-2147483648 <= r <= 2147483647)%Z)
    (Hs : Dyadic.finite s = true) (Ho : Dyadic.finite o = true)
    (Hscale : Qabs (Dyadic.value s) <= 2 ^ 900)
    (Hoffset : Qabs (Dyadic.value o) <= 2 ^ 950) :
  Dyadic.finite (decode (of_int r) s o) = true /\
  Qabs (Dyadic.value (decode (of_int r) s o) - (inject_Z r * Dyadic.value s + Dyadic.value o))
  <= 2 ^ (-50) * (Qabs (inject_Z r * Dyadic.value s) + Qabs (Dyadic.value o))
     + 2 ^ (-1072).
Proof.
  unfold decode. cbn [add mul of_int binary64].
  destruct (float_of_Z_exact r) as [Hf Hfv]; [lia |].
  apply Qabs_Qle_condition in Hscale as [Hs1 Hs2].
  apply Qabs_Qle_condition in Hoffset as [Ho1 Ho2].
  assert (-2147483648 <= inject_Z r <= 2147483648) as [Hr1 Hr2].
  { split.
    - change (-2147483648) with (inject_Z (-2147483648)). apply inject_Z_le. lia.
    - change 2147483648 with (inject_Z 2147483648). apply inject_Z_le. lia. }
  remember (Dyadic.value s) as qs. remember (Dyadic.value o) as qo.
  remember (inject_Z r) as R.
  assert (- (2147483648 * 2 ^ 900) <= R * qs <= 2147483648 * 2 ^ 900) as Ht
    by (split; nra).
  destruct (mul_error (float_of_Z r) s Hf Hs) as [Hfp Hp].
  { rewrite Hfv, <- Heqqs.
    apply (magnitude_below _ (2147483648 * 2 ^ 900)); [done | lra]. }
  rewrite Hfv, <- Heqqs in Hp.
  remember (Dyadic.value (float_of_Z r * s)) as vp.
  remember (R * qs) as t.
  apply Qabs_Qle_condition in Hp as [Hp1 Hp2].
  destruct (Qabs_cases t) as [[Ht0 Habs_t]|[Ht0 Habs_t]];
    destruct (Qabs_cases qo) as [[Hqo0 Habs_o]|[Hqo0 Habs_o]];
    rewrite Habs_t in *; rewrite ?Habs_o in *.
  all: destruct (add_error (float_of_Z r * s) o Hfp Ho) as [Hfv' Hv];
    [rewrite <- Heqvp, <- Heqqo;
     apply (magnitude_below _ (2147483649 * 2 ^ 900 + 2 ^ 950)); [split; lra | lra] |].
  all: rewrite <- Heqvp, <- Heqqo in Hv.
  all: split; [done |].
  all: apply Qabs_Qle_condition in Hv as [Hv1 Hv2].
  all: apply Qabs_Qle_condition.
  all: destruct (Qabs_cases (vp + qo)) as [[Hs0 Habs_s]|[Hs0 Habs_s]];
    rewrite Habs_s in *; split; lra.
Qed.

Lemma decode_accuracy_witness :
  Dyadic.finite (decode (of_int 1000) 0.0001 329999.8947)%float = true /\
  Qabs (Dyadic.value (decode (of_int 1000) 0.0001 329999.8947)%float
        - (inject_Z 1000 * Dyadic.value 0.0001%float + Dyadic.value 329999.8947%float))
  <= 2 ^ (-50) * (Qabs (inject_Z 1000 * Dyadic.value 0.0001%float)
                  + Qabs (Dyadic.value 329999.8947%float))
     + 2 ^ (-1072).
Proof.
  apply decode_accuracy.
  - lia.
  - reflexivity.
  - reflexivity.
  - vm_compute. discriminate.
  - vm_compute. discriminate.
Defined.

End RoundTrip.


(** With the rounding of the specification, the scale and offset of
    the first scenario give back the raw integers at the ends and in
    the middle of the 32-bit range. *)
Example round_trip_rounded_samples :
  map (fun r => encode_spec_float (decode (of_int r) 0.0001 329999.8947)
                                  0.0001 329999.8947)%float
      [-2147483648; -1; 0; 1000; 2147483647]%Z
  = [Some (-2147483648); Some (-1); Some 0; Some 1000; Some 2147483647]%Z.
Proof. vm_compute. reflexivity. Qed.

(** C3 (amended). With scale 0.0001 and offset 329999.8947, the raw
    integer 1000 is decoded to 329999.9947, in binary64 and in exact
    arithmetic alike. *)
Theorem scenario1_decode :
  (decode (of_int 1000) 0.0001 329999.8947 = 329999.9947)%float /\
  (decode (of_int 1000) (1 # 10000) (3299998947 # 10000) == 3299999947 # 10000)%Q.
Proof. split; [vm_compute; reflexivity | reflexivity]. Qed.

(** C3 as stated fails: the decoded value is not 330000.0. *)
Lemma decode_scenario1_is_not_330000 :
  (PrimFloat.eqb (decode (of_int 1000) 0.0001 329999.8947) 330000.0 = false)%float /\
  (decode (of_int 1000) 0.0001 329999.8947 <> 330000.0)%float /\
  ~ (decode (of_int 1000) (1 # 10000) (3299998947 # 10000) == 330000)%Q.
Proof.
  split; [vm_compute; reflexivity |]. split.
  - intros H.
    assert (PrimFloat.eqb (decode (of_int 1000) 0.0001 329999.8947) 330000.0
            = PrimFloat.eqb 330000.0 330000.0)%float as E by (by rewrite H).
    vm_compute in E. discriminate.
  - intros H. vm_compute in H. discriminate.
Qed.

(** ** Witnesses on the scenarios *)

Lemma extract_height_first_match_witness :
  Forall (fun row => length row = length Scenario.response_header)
         Scenario.two_rows /\
  Scenario.response_header !! 2 = Some "H2013" /\
  (forall i, i < 2 -> Scenario.response_header !! i ≠ Some "H2013") /\
  exists cells,
    extract_height (Scenario.response_header :: Scenario.two_rows) "H2013"
    = Returns cells /\
    Forall2 (fun (row : list string) cell => row !! 2 = Some cell)
            Scenario.two_rows cells.
Proof.
  assert (Forall (fun row => length row = length Scenario.response_header)
                 Scenario.two_rows) as Hrect by (repeat constructor).
  split; [exact Hrect |].
  exact (extract_height_first_match "H2013" Scenario.response_header
           Scenario.two_rows Hrect).
Defined.

(** The comparison of names distinguishes the case of letters. *)
Example extract_height_lower_case :
  extract_height (Scenario.response_header :: Scenario.two_rows) "h2013"
  = Raises IndexError.
Proof. reflexivity. Qed.

(** Scenario 3: the malformed row is dropped by the parser and the
    heights of the two other rows are extracted from column 2. *)
Example scenario3_heights :
  (matrix ← Response.parse_response Scenario.response_text;
   extract_height matrix "H2013")
  = Returns ["0.67103"; "0.417"].
Proof. reflexivity. Qed.

(** ** The overrides of [single_point] *)

Section SinglePointFacts.

Import Service.

Variable http_get : string -> gmap string pyval -> outcome string.

Lemma request_data_fields (self : WebService) (x y z : pyval) :
  let data := request_data self x y z in
  data !! "proj" = Some (PStr (projection self)) /\
  data !! "lang" = Some (PStr (lang self)) /\
  data !! "conversion" = Some (PStr (conversion self)) /\
  data !! "westpos" = Some (PStr (westpos self)) /\
  data !! "model" = Some (PStr (model self)) /\
  data !! "frame" = Some (PStr (frame self)) /\
  data !! "epoch" = Some (PStr (epoch self)).
Proof.
  unfold request_data.
  destruct (String.eqb (projection self) "plan"); by simplify_map_eq.
Qed.

Lemma after_calls_kept (get : WebService -> string)
    (arg : Overrides -> option string)
    (Hcall : forall self x y z o,
       arg o = None ->
       get (fst (single_point http_get self x y z None o)) = get self)
    (calls : list (pyval * pyval * pyval * Overrides)) :
  forall self : WebService,
    Forall (fun call => arg call.2 = None) calls ->
    get (after_calls http_get self calls) = get self.
Proof.
  induction calls as [|[[[x y] z] o] calls IH]; intros self Hnone; [done |].
  apply Forall_cons in Hnone as [Ho Hnone]. simpl in Ho.
  change (get (after_calls http_get
                 (fst (single_point http_get self x y z None o)) calls)
          = get self).
  rewrite IH by done. by apply Hcall.
Qed.

Ltac field_kept get arg :=
  intros Hnone; apply (after_calls_kept get arg); [|exact Hnone];
  intros ? ? ? ? o' Ho'; unfold single_point, apply_overrides; simpl;
  by rewrite Ho'.

(** C10 (amended). A call of [single_point] without a [type] leaves
    every field for which an override is given with the value of the
    override, and every other field with its previous value; the URL
    and the CSV flag are not touched.  The value stays, and is the one
    sent, over every sequence of later calls of [single_point] that
    pass no override for the field; the request of a later call
    carries the fields as they are after the overrides of that call. *)
Theorem single_point_overrides_persist (self : WebService)
    (x y z : pyval) (o : Overrides) :
  let self' := fst (single_point http_get self x y z None o) in
  (match o_projection o with
   | Some v => projection self' = v
   | None => projection self' = projection self
   end /\
   match o_lang o with
   | Some v => lang self' = v
   | None => lang self' = lang self
   end /\
   match o_conversion o with
   | Some v => conversion self' = v
   | None => conversion self' = conversion self
   end /\
   match o_westpos o with
   | Some v => westpos self' = v
   | None => westpos self' = westpos self
   end /\
   match o_model o with
   | Some v => model self' = v
   | None => model self' = model self
   end /\
   match o_frame o with
   | Some v => frame self' = v
   | None => frame self' = frame self
   end /\
   match o_epoch o with
   | Some v => epoch self' = v
   | None => epoch self' = epoch self
   end /\
   service_url self' = service_url self /\
   tocsv self' = tocsv self) /\
  (forall calls : list (pyval * pyval * pyval * Overrides),
     let final := after_calls http_get self' calls in
     (Forall (fun call => o_projection call.2 = None) calls ->
      projection final = projection self') /\
     (Forall (fun call => o_lang call.2 = None) calls ->
      lang final = lang self') /\
     (Forall (fun call => o_conversion call.2 = None) calls ->
      conversion final = conversion self') /\
     (Forall (fun call => o_westpos call.2 = None) calls ->
      westpos final = westpos self') /\
     (Forall (fun call => o_model call.2 = None) calls ->
      model final = model self') /\
     (Forall (fun call => o_frame call.2 = None) calls ->
      frame final = frame self') /\
     (Forall (fun call => o_epoch call.2 = None) calls ->
      epoch final = epoch self')) /\
  forall (x2 y2 z2 : pyval) (o2 : Overrides),
    let self'' := fst (single_point http_get self' x2 y2 z2 None o2) in
    exists data,
      snd (single_point http_get self' x2 y2 z2 None o2)
      = http_get (service_url self) data /\
      data !! "proj" = Some (PStr (projection self'')) /\
      data !! "lang" = Some (PStr (lang self'')) /\
      data !! "conversion" = Some (PStr (conversion self'')) /\
      data !! "westpos" = Some (PStr (westpos self'')) /\
      data !! "model" = Some (PStr (model self'')) /\
      data !! "frame" = Some (PStr (frame self'')) /\
      data !! "epoch" = Some (PStr (epoch self'')).
Proof.
  intros self'. split; [|split].
  - unfold self', single_point, apply_overrides. simpl.
    destruct (o_projection o), (o_lang o), (o_conversion o), (o_westpos o),
      (o_model o), (o_frame o), (o_epoch o); by repeat split.
  - intros calls final. subst final. generalize self'. intros ws.
    repeat split;
      [field_kept projection o_projection | field_kept lang o_lang
      | field_kept conversion o_conversion | field_kept westpos o_westpos
      | field_kept model o_model | field_kept frame o_frame
      | field_kept epoch o_epoch].
  - intros x2 y2 z2 o2 self''.
    eexists. split; [reflexivity |]. apply request_data_fields.
Qed.

(** An override of the model is sent by a later call that passes no
    override at all. *)
Example model_override_is_sent_later (self : WebService) (x y z : pyval) :
  let o := {| o_projection := None; o_lang := None; o_conversion := None;
              o_westpos := None; o_model := Some "CGG2013a";
              o_frame := None; o_epoch := None |} in
  let self' := fst (single_point http_get self x y z None o) in
  model self' = "CGG2013a" /\
  frame self' = frame self /\
  fst (single_point http_get self' x y z None no_overrides) = self' /\
  request_data (fst (single_point http_get self' x y z None no_overrides)) x y z
    !! "model" = Some (PStr "CGG2013a").
Proof.
  intros o self'. split; [done |]. split; [done |]. split; [done |].
  destruct (request_data_fields
              (fst (single_point http_get self' x y z None no_overrides)) x y z)
    as (_ & _ & _ & _ & Hmodel & _).
  by rewrite Hmodel.
Qed.

(** A call with a [type] fails before any field is assigned. *)
Example single_point_with_type (self : WebService) (x y z : pyval)
    (type : string) (o : Overrides) :
  single_point http_get self x y z (Some type) o = (self, Raises AttributeError).
Proof. reflexivity. Qed.

End SinglePointFacts.

(** C10 as stated fails for the calls that are not calls of
    [single_point]: a projection [plan] stored by [single_point] is
    replaced by the conversion flag [on] when [batch_call] is called
    next, and the call of [single_point] after that sends [on]. *)
Lemma batch_call_replaces_overridden_projection :
  Service.projection
    (fst (Service.single_point Sample.http_get Sample.wbservice
            (Service.PNum 329999.8947) (Service.PNum 4839000.0062)
            (Service.PNum 0.671) None Sample.plan))
  = "plan" /\
  Service.projection
    (Batch.batch_call Sample.http_post
       (fst (Service.single_point Sample.http_get Sample.wbservice
               (Service.PNum 329999.8947) (Service.PNum 4839000.0062)
               (Service.PNum 0.671) None Sample.plan))
       Sample.files "prewb.temp.csv").1.1
  = "on" /\
  exists data,
    snd (Service.single_point Sample.http_get
           (Batch.batch_call Sample.http_post
              (fst (Service.single_point Sample.http_get Sample.wbservice
                      (Service.PNum 329999.8947) (Service.PNum 4839000.0062)
                      (Service.PNum 0.671) None Sample.plan))
              Sample.files "prewb.temp.csv").1.1
           (Service.PNum 329999.8947) (Service.PNum 4839000.0062)
           (Service.PNum 0.671) None Service.no_overrides)
    = Sample.http_get Batch.upload_url data /\
    data !! "proj" = Some (Service.PStr "on").
Proof.
  split; [reflexivity |]. split; [reflexivity |].
  exists (Service.request_data
            (Service.apply_overrides
               (Batch.batch_call Sample.http_post
                  (fst (Service.single_point Sample.http_get Sample.wbservice
                          (Service.PNum 329999.8947) (Service.PNum 4839000.0062)
                          (Service.PNum 0.671) None Sample.plan))
                  Sample.files "prewb.temp.csv").1.1
               Service.no_overrides)
            (Service.PNum 329999.8947) (Service.PNum 4839000.0062)
            (Service.PNum 0.671)).
  split; [reflexivity |]. vm_compute. reflexivity.
Qed.

(** * Properties of the further parts *)

(** ** Splitting and joining *)

Lemma has_char_append (c : ascii) (s t : string) :
  has_char c (s +:+ t) = has_char c s || has_char c t.
Proof.
  induction s as [|c' s IH]; [done |].
  rewrite append_cons. simpl. rewrite IH. by rewrite orb_assoc.
Qed.

Lemma has_newline_has_char (s : string) : has_newline s = has_char newline s.
Proof. induction s as [|c s IH]; simpl; [done | by rewrite IH]. Qed.

Lemma append_singleton (cur : string) (c : ascii) (s : string) :
  (cur +:+ String c EmptyString) +:+ s = cur +:+ String c s.
Proof. by rewrite append_assoc. Qed.

Lemma split_from_last (sep : ascii) (field : string) : forall cur,
  has_char sep field = false ->
  split_from sep cur field = [cur +:+ field].
Proof.
  induction field as [|c field IH]; intros cur Hfield; simpl.
  - by rewrite append_nil_r.
  - simpl in Hfield. apply orb_false_elim in Hfield as [Hc Hfield].
    rewrite Hc, IH by done. by rewrite append_singleton.
Qed.

Lemma split_from_field (sep : ascii) (field rest : string) : forall cur,
  has_char sep field = false ->
  split_from sep cur (field +:+ String sep rest)
  = (cur +:+ field) :: split_from sep EmptyString rest.
Proof.
  induction field as [|c field IH]; intros cur Hfield.
  - simpl. by rewrite Ascii.eqb_refl, append_nil_r.
  - simpl in Hfield. apply orb_false_elim in Hfield as [Hc Hfield].
    rewrite append_cons. simpl. rewrite Hc, IH by done.
    by rewrite append_singleton.
Qed.

Lemma concat_cons_cons (sep x y : string) (l : list string) :
  String.concat sep (x :: y :: l) = x +:+ sep +:+ String.concat sep (y :: l).
Proof. reflexivity. Qed.

Lemma split_concat (sep : ascii) (fields : list string) :
  fields <> [] ->
  Forall (fun field => has_char sep field = false) fields ->
  split sep (String.concat (String sep EmptyString) fields) = fields.
Proof.
  intros Hne Hfields. unfold split.
  induction Hfields as [|field fields Hfield Hfields IH]; [done |].
  destruct fields as [|field' fields].
  - simpl. by rewrite split_from_last.
  - rewrite concat_cons_cons. rewrite append_cons.
    rewrite split_from_field by done. simpl. f_equal. by apply IH.
Qed.

Lemma concat_split_from (sep : ascii) (s : string) : forall cur,
  String.concat (String sep EmptyString) (split_from sep cur s) = cur +:+ s.
Proof.
  induction s as [|c s IH]; intros cur; simpl.
  - by rewrite append_nil_r.
  - destruct (Ascii.eqb_spec c sep) as [->|Hne].
    + destruct (split_from_cons sep EmptyString s) as (first & rest & E).
      specialize (IH EmptyString). rewrite E in *.
      rewrite concat_cons_cons, IH. reflexivity.
    + rewrite IH. by rewrite append_singleton.
Qed.

Lemma split_from_snoc (sep : ascii) (s : string) : forall cur,
  split_from sep cur (s +:+ String sep EmptyString)
  = split_from sep cur s ++ [EmptyString].
Proof.
  induction s as [|c s IH]; intros cur.
  - simpl. by rewrite Ascii.eqb_refl.
  - rewrite append_cons. simpl. destruct (Ascii.eqb c sep); by rewrite IH.
Qed.

Lemma split_from_fields_clean (sep : ascii) (s : string) : forall cur,
  has_char sep cur = false ->
  Forall (fun field => has_char sep field = false) (split_from sep cur s).
Proof.
  induction s as [|c s IH]; intros cur Hcur; simpl.
  - by constructor.
  - destruct (Ascii.eqb c sep) eqn:Hc.
    + constructor; [done | by apply IH].
    + apply IH. rewrite has_char_append, Hcur. simpl. by rewrite Hc.
Qed.

(** ** The text written by [las_to_csv] *)

Lemma unlines_app (lines lines' : list string) :
  unlines (lines ++ lines') = unlines lines +:+ unlines lines'.
Proof.
  induction lines as [|line lines IH]; [done |].
  simpl. by rewrite IH, !append_assoc.
Qed.

Section WriterText.

Variable str : num -> string.
Variable close : File -> outcome unit.

Lemma format_record_cells (file_info : FileInfo) (record : list num) :
  forall (names : list string) (index : nat) (line : string),
    header_size file_info = Z.of_nat (length (attributes file_info)) ->
    drop index (attributes file_info) = names ->
    length names = length record ->
    Writer.format_record str file_info record index line
    = Returns (line +:+ String.concat "," (csv_cells str file_info names record)).
Proof.
  induction record as [|attribute record IH];
    intros names index line Hsize Hnames Hlen.
  - destruct names; [|done]. simpl. by rewrite append_nil_r.
  - destruct names as [|name names]; [done |].
    assert (attributes file_info !! index = Some name) as Hname.
    { pose proof (lookup_drop (attributes file_info) index 0) as Hdrop.
      by rewrite Hnames, Nat.add_0_r in Hdrop. }
    assert (drop (S index) (attributes file_info) = names) as Hnames'.
    { replace (S index) with (index + 1) by lia.
      by rewrite <- drop_drop, Hnames. }
    assert (length (attributes file_info) = index + S (length names)) as Hall.
    { pose proof (lookup_lt_Some _ _ _ Hname).
      pose proof (length_drop (attributes file_info) index) as Hd.
      rewrite Hnames in Hd. simpl in Hd. lia. }
    cbn [Writer.format_record]. unfold getitem. rewrite Hname.
    unfold mbind, outcome_bind, bind.
    fold (csv_value file_info name attribute).
    simpl in Hlen. injection Hlen as Hlen.
    rewrite (IH names (S index)) by done.
    f_equal. unfold csv_cells. cbn [zip_with].
    destruct names as [|name' names], record as [|attribute' record]; try done.
    + assert ((Z.of_nat index <? header_size file_info - 1)%Z = false) as ->
        by (apply Z.ltb_ge; simpl in Hall; lia).
      cbn [zip_with String.concat]. by rewrite append_nil_r.
    + assert ((Z.of_nat index <? header_size file_info - 1)%Z = true) as ->
        by (apply Z.ltb_lt; simpl in Hall; lia).
      cbn [zip_with]. rewrite concat_cons_cons. by rewrite !append_assoc.
Qed.

Lemma write_points_list_text (file_info : FileInfo)
    (points_list : list (list num)) : forall out,
  header_size file_info = Z.of_nat (length (attributes file_info)) ->
  Forall (fun record : list num => length record = length (attributes file_info))
         points_list ->
  Writer.write_points_list str file_info points_list out
  = (out +:+ unlines
       (map (fun record =>
               String.concat "," (csv_cells str file_info
                                    (attributes file_info) record))
            points_list), Returns tt).
Proof.
  induction points_list as [|record rest IH]; intros out Hsize Hrecords.
  - simpl. by rewrite append_nil_r.
  - apply Forall_cons in Hrecords as [Hrecord Hrest].
    cbn [Writer.write_points_list].
    rewrite (format_record_cells file_info record (attributes file_info) 0)
      by done.
    rewrite IH by done. simpl. by rewrite !append_assoc.
Qed.

Lemma write_points_text (file_info : FileInfo)
    (pts : list (list (list num))) : forall out,
  header_size file_info = Z.of_nat (length (attributes file_info)) ->
  Forall (fun points_list : list (list num) =>
            Forall (fun record => length record = length (attributes file_info))
                   points_list) pts ->
  Writer.write_points str file_info pts out
  = (out +:+ unlines
       (map (fun record =>
               String.concat "," (csv_cells str file_info
                                    (attributes file_info) record))
            (concat pts)), Returns tt).
Proof.
  induction pts as [|points_list rest IH]; intros out Hsize Hpts.
  - simpl. by rewrite append_nil_r.
  - apply Forall_cons in Hpts as [Hrecords Hrest].
    cbn [Writer.write_points].
    rewrite write_points_list_text by done.
    rewrite IH by done. simpl. by rewrite map_app, unlines_app, !append_assoc.
Qed.

Lemma open_read_stream_schema (inFile : File) :
  attributes (open_read_stream inFile) = point_format inFile /\
  header_size (open_read_stream inFile)
  = Z.of_nat (length (attributes (open_read_stream inFile))).
Proof.
  unfold open_read_stream.
  by destruct (offset (header inFile)) as [[? ?] ?],
              (scale (header inFile)) as [[? ?] ?].
Qed.

Lemma las_to_csv_writes (inFile : File) :
  well_formed inFile ->
  Writer.las_to_csv str close inFile
  = (unlines
       (String.concat "," (point_format inFile)
        :: map (fun record =>
                  String.concat ","
                    (csv_cells str (open_read_stream inFile)
                       (point_format inFile) record))
               (concat (points inFile))), close inFile).
Proof.
  intros Hlayout. destruct (open_read_stream_schema inFile) as [Hatts Hsize].
  unfold Writer.las_to_csv. rewrite write_points_text.
  - rewrite get_header_concat, Hatts. simpl. by rewrite !append_assoc.
  - done.
  - rewrite Hatts. eapply Forall_impl; [exact Hlayout |]. by intros ? [_ ?].
Qed.

(** X1. For a file in the layout of the LAS library, [las_to_csv]
    writes the attribute names joined by commas and then, for every
    point record in order, one line of its values joined by commas: a
    value named X, Y or Z is decoded with the scale and offset of its
    axis, any other value is written as stored.  The call then closes
    the input stream, and its outcome is the outcome of that close. *)
Theorem las_to_csv_text (inFile : File) (Hlayout : well_formed inFile) :
  fst (Writer.las_to_csv str close inFile)
  = unlines
      (String.concat "," (point_format inFile)
       :: map (fun record =>
                 String.concat ","
                   (csv_cells str (open_read_stream inFile)
                      (point_format inFile) record))
              (concat (points inFile))) /\
  snd (Writer.las_to_csv str close inFile) = close inFile.
Proof. by rewrite las_to_csv_writes. Qed.

End WriterText.

Lemma las_to_csv_text_witness :
  fst (Writer.las_to_csv Text.show_num Laspy.close Scenario.three_points)
  = unlines
      (String.concat "," (point_format Scenario.three_points)
       :: map (fun record =>
                 String.concat ","
                   (csv_cells Text.show_num
                      (open_read_stream Scenario.three_points)
                      (point_format Scenario.three_points) record))
              (concat (points Scenario.three_points))) /\
  snd (Writer.las_to_csv Text.show_num Laspy.close Scenario.three_points)
  = Laspy.close Scenario.three_points.
Proof.
  apply (las_to_csv_text Text.show_num Laspy.close Scenario.three_points).
  repeat constructor.
Defined.

(** ** Reading a table back from its text *)

Lemma has_char_concat (c : ascii) (sep : string) (fields : list string) :
  has_char c sep = false ->
  Forall (fun field => has_char c field = false) fields ->
  has_char c (String.concat sep fields) = false.
Proof.
  intros Hsep. induction 1 as [|field fields Hfield _ IH]; [done |].
  destruct fields as [|field' fields]; [done |].
  rewrite concat_cons_cons, !has_char_append, Hfield, Hsep, IH. done.
Qed.

Lemma unlines_concat (line : string) (lines : list string) :
  unlines (line :: lines)
  = String.concat (String newline EmptyString) (line :: lines)
    +:+ String newline EmptyString.
Proof.
  revert line. induction lines as [|line' lines IH]; intros line.
  - simpl. by rewrite append_nil_r.
  - change (unlines (line :: line' :: lines))
      with (line +:+ String newline EmptyString +:+ unlines (line' :: lines)).
    rewrite IH, concat_cons_cons. by rewrite !append_assoc.
Qed.

Lemma split_csv_lines (table : list (list string)) :
  table <> [] ->
  Forall (Forall clean) table ->
  split newline (csv_text table) = map (String.concat ",") table.
Proof.
  intros Hne Hclean. unfold csv_text. apply split_concat.
  - by destruct table.
  - apply Forall_map. eapply Forall_impl; [exact Hclean |].
    intros row Hrow. simpl. apply has_char_concat; [done |].
    eapply Forall_impl; [exact Hrow |]. by intros cell [_ ?].
Qed.

Lemma split_csv_row (row : list string) :
  row <> [] -> Forall clean row ->
  split comma (String.concat "," row) = row.
Proof.
  intros Hne Hrow. apply (split_concat comma row Hne).
  eapply Forall_impl; [exact Hrow |]. by intros cell [? _].
Qed.

Lemma filter_all {A} (P : A -> Prop) `{forall x, Decision (P x)} (l : list A) :
  Forall P l -> filter P l = l.
Proof.
  induction 1 as [|x l Hx _ IH]; [done |].
  by rewrite filter_cons, decide_True, IH.
Qed.

Lemma parse_csv_text (header : list string) (rows : list (list string)) :
  header <> [] ->
  Forall (Forall clean) (header :: rows) ->
  Forall (fun row => length row = length header) rows ->
  Response.parse_response (csv_text (header :: rows)) = Returns (header :: rows).
Proof.
  intros Hne Hclean Hrect. unfold Response.parse_response.
  rewrite split_csv_lines by done. simpl.
  apply Forall_cons in Hclean as [Hheader Hrows].
  rewrite split_csv_row by done.
  rewrite (append_rows_filter header []). simpl. do 2 f_equal.
  rewrite <- (filter_all (fun row => length row = length header) rows Hrect) at 2.
  f_equal. rewrite map_map. rewrite <- (map_id rows) at 2.
  apply map_ext_in. intros row Hin. apply split_csv_row.
  - apply list_elem_of_In in Hin.
    pose proof (proj1 (list.Forall_forall _ _) Hrect row Hin) as Hlen.
    intros ->. destruct header; done.
  - apply list_elem_of_In in Hin.
    exact (proj1 (list.Forall_forall _ _) Hrows row Hin).
Qed.

Lemma parse_with_final_newline (text : string) :
  Response.parse_response (text +:+ String newline EmptyString)
  = match Response.parse_response text with
    | Returns (header :: rows) =>
        Returns (header :: rows
                   ++ (if Nat.eqb (length header) 1 then [[EmptyString]] else []))
    | other => other
    end.
Proof.
  unfold Response.parse_response, split. rewrite split_from_snoc.
  destruct (split_from_cons newline EmptyString text) as (first & data & ->).
  simpl. rewrite !(append_rows_filter _ []). simpl.
  rewrite map_app, filter_app. simpl. do 3 f_equal.
  rewrite filter_cons, filter_nil.
  change (length (split comma EmptyString)) with 1.
  destruct (Nat.eqb_spec (length (split_from comma EmptyString first)) 1) as [E|E].
  - by rewrite decide_True.
  - by rewrite decide_False.
Qed.

(** X2. A table of cells that hold neither commas nor line breaks, with
    a header of at least one column and rows as long as the header, is
    read back by the parser of [batch_call] from its CSV text. *)
Theorem parse_response_reads_csv (header : list string)
    (rows : list (list string))
    (Hheader : header <> [])
    (Hclean : Forall (Forall clean) (header :: rows))
    (Hrect : Forall (fun row => length row = length header) rows) :
  Response.parse_response (csv_text (header :: rows)) = Returns (header :: rows).
Proof. by apply parse_csv_text. Qed.

Lemma parse_response_reads_csv_witness :
  Response.parse_response
    (csv_text (Scenario.response_header :: Scenario.two_rows))
  = Returns (Scenario.response_header :: Scenario.two_rows).
Proof.
  apply (parse_response_reads_csv Scenario.response_header Scenario.two_rows).
  - discriminate.
  - repeat constructor.
  - repeat constructor.
Defined.

(** X3. A line break at the end of the response changes the parsed
    table only when the header has a single column: then the empty last
    line is kept as a row of one empty cell; with any other header the
    table is the same. *)
Theorem parse_response_final_newline (text : string) :
  Response.parse_response (text +:+ String newline EmptyString)
  = match Response.parse_response text with
    | Returns (header :: rows) =>
        Returns (header :: rows
                   ++ (if Nat.eqb (length header) 1 then [[EmptyString]] else []))
    | other => other
    end.
Proof. apply parse_with_final_newline. Qed.

(** ** The CSV of [las_to_csv] read by the parser *)

Lemma csv_cells_length (str : num -> string) (file_info : FileInfo)
    (names : list string) (record : list num) :
  length record = length names ->
  length (csv_cells str file_info names record) = length names.
Proof. intros Hlen. unfold csv_cells. rewrite length_zip_with. lia. Qed.

Lemma csv_cells_clean (str : num -> string) (file_info : FileInfo)
    (names : list string) : forall record : list num,
  (forall v, clean (str v)) ->
  Forall clean (csv_cells str file_info names record).
Proof.
  intros record Hstr. revert record. unfold csv_cells.
  induction names as [|name names IH]; intros [|attribute record]; simpl;
    constructor; [apply Hstr | apply IH].
Qed.

Lemma show_digit_clean (d : Z) : clean (Text.show_digit d).
Proof.
  unfold clean, Text.show_digit.
  assert (Z.to_nat (d mod 10) < 10) as Hk
    by (pose proof (Z.mod_pos_bound d 10); lia).
  revert Hk. generalize (Z.to_nat (d mod 10)). intros k Hk.
  do 10 (destruct k as [|k]; [by split |]). lia.
Qed.

Lemma clean_append (s t : string) : clean s -> clean t -> clean (s +:+ t).
Proof.
  intros [Hs1 Hs2] [Ht1 Ht2]. unfold clean.
  by rewrite !has_char_append, Hs1, Hs2, Ht1, Ht2.
Qed.

Lemma show_digits_clean (width : nat) : forall n, clean (Text.show_digits width n).
Proof.
  induction width as [|width IH]; intros n; [done |].
  cbn [Text.show_digits]. apply clean_append; [apply IH | apply show_digit_clean].
Qed.

Lemma show_num_clean (v : num) : clean (Text.show_num v).
Proof.
  destruct v as [n|f]; unfold Text.show_num, Text.show_Z, Text.show_float,
    Text.show_natural.
  - destruct (n <? 0)%Z.
    + apply clean_append; [by split | apply show_digits_clean].
    + apply show_digits_clean.
  - destruct (nearest_float _) as [n|]; [|by split].
    apply clean_append; [by destruct (n <? 0)%Z |].
    apply clean_append; [apply show_digits_clean |].
    apply clean_append; [by split | apply show_digits_clean].
Qed.

Lemma Forall_concat_all {A} (P : A -> Prop) (ls : list (list A)) :
  Forall (Forall P) ls -> Forall P (concat ls).
Proof.
  induction 1 as [|l ls Hl _ IH]; simpl; [done | by apply Forall_app_2].
Qed.

Section WriterParser.

Variable str : num -> string.
Variable close : File -> outcome unit.
Hypothesis str_clean : forall v, clean (str v).

(** X4. The text that [las_to_csv] writes for a file of at least two
    attributes is read by the parser of [batch_call] as the table of
    the attribute names and of the values of every point record, when
    the names and the printed values hold neither commas nor line
    breaks: no row is dropped and no cell is split. *)
Theorem las_to_csv_parses_back (inFile : File)
    (Hcolumns : 2 <= length (point_format inFile))
    (Hnames : Forall clean (point_format inFile))
    (Hlayout : well_formed inFile) :
  Response.parse_response (fst (Writer.las_to_csv str close inFile))
  = Returns (point_format inFile
             :: map (csv_cells str (open_read_stream inFile) (point_format inFile))
                    (concat (points inFile))).
Proof using str_clean.
  rewrite (las_to_csv_writes str close inFile Hlayout). cbn [fst].
  rewrite unlines_concat, <- map_map.
  change (String.concat "," (point_format inFile)
          :: map (String.concat ",")
               (map (csv_cells str (open_read_stream inFile) (point_format inFile))
                    (concat (points inFile))))
    with (map (String.concat ",")
            (point_format inFile
             :: map (csv_cells str (open_read_stream inFile) (point_format inFile))
                    (concat (points inFile)))).
  fold (csv_text (point_format inFile
             :: map (csv_cells str (open_read_stream inFile) (point_format inFile))
                    (concat (points inFile)))).
  rewrite parse_with_final_newline, parse_csv_text.
  - destruct (Nat.eqb_spec (length (point_format inFile)) 1) as [E|E]; [lia |].
    by rewrite app_nil_r.
  - destruct (point_format inFile); [simpl in Hcolumns; lia | done].
  - constructor; [done |]. apply Forall_map, list.Forall_forall.
    intros record _. by apply csv_cells_clean.
  - apply Forall_map. eapply Forall_impl.
    + apply Forall_concat_all.
      eapply Forall_impl; [exact Hlayout |]. intros points_list [_ Hrecords].
      exact Hrecords.
    + intros record Hrecord. simpl. by apply csv_cells_length.
Qed.

End WriterParser.

Lemma las_to_csv_parses_back_witness :
  Response.parse_response
    (fst (Writer.las_to_csv Text.show_num Laspy.close Sample.five_attributes))
  = Returns (point_format Sample.five_attributes
             :: map (csv_cells Text.show_num (open_read_stream Sample.five_attributes)
                       (point_format Sample.five_attributes))
                    (concat (points Sample.five_attributes))).
Proof.
  apply (las_to_csv_parses_back Text.show_num Laspy.close show_num_clean
           Sample.five_attributes).
  - simpl. lia.
  - repeat constructor.
  - repeat constructor.
Defined.

Example five_attributes_parsed :
  Response.parse_response
    (fst (Writer.las_to_csv Text.show_num Laspy.close Sample.five_attributes))
  = Returns [["X"; "Y"; "Z"; "intensity"; "flag_byte"];
             ["329999.8947"; "4839000.0062"; "0.6710"; "120"; "9"];
             ["330002.2338"; "4838999.6872"; "0.6170"; "95"; "9"]].
Proof. vm_compute. reflexivity. Qed.

(** ** The lines of [las_to_csv] and the scale *)

Lemma count_lines_unlines (lines : list string) :
  Forall (fun line => has_newline line = false) lines ->
  count_lines (unlines lines) = length lines.
Proof.
  induction 1 as [|line lines Hline _ IH]; [done |].
  simpl unlines. rewrite !count_lines_append, IH.
  rewrite (count_lines_no_newline line Hline). done.
Qed.

Lemma length_concat_singletons {A} (ls : list (list A)) :
  Forall (fun l => length l = 1) ls -> length (concat ls) = length ls.
Proof.
  induction 1 as [|l ls Hl _ IH]; [done |].
  simpl. rewrite length_app, Hl, IH. done.
Qed.

Lemma csv_cells_one_line (str : num -> string) (file_info : FileInfo)
    (names : list string) : forall record : list num,
  (forall v, has_newline (str v) = false) ->
  Forall (fun cell => has_newline cell = false)
         (csv_cells str file_info names record).
Proof.
  intros record Hstr. revert record. unfold csv_cells.
  induction names as [|name names IH]; intros [|attribute record]; simpl;
    constructor; [apply Hstr | apply IH].
Qed.

Section WriterLines.

Variable str : num -> string.
Variable close : File -> outcome unit.
Hypothesis str_one_line : forall v, has_newline (str v) = false.

(** C9. For a file of [n] point records, in the layout of the LAS
    library, whose attribute names and printed values hold no line
    break, [las_to_csv] writes a text of exactly [n + 1] lines: the
    header line and then one line for every point record.  The call
    ends with the close of the input stream. *)
Theorem las_to_csv_line_count (inFile : File)
    (Hnames : Forall (fun name => has_newline name = false) (point_format inFile))
    (Hlayout : well_formed inFile) :
  exists rows,
    fst (Writer.las_to_csv str close inFile)
    = get_header (open_read_stream inFile) +:+ String newline EmptyString
      +:+ rows /\
    count_lines (fst (Writer.las_to_csv str close inFile))
    = length (points inFile) + 1 /\
    has_newline (get_header (open_read_stream inFile)) = false /\
    count_lines rows = length (points inFile) /\
    snd (Writer.las_to_csv str close inFile) = close inFile.
Proof using str_one_line.
  rewrite (las_to_csv_writes str close inFile Hlayout). cbn [fst snd unlines].
  set (lines := map (fun record =>
                  String.concat ","
                    (csv_cells str (open_read_stream inFile)
                       (point_format inFile) record))
               (concat (points inFile))).
  assert (has_newline (String.concat "," (point_format inFile)) = false) as Hhead
    by (by apply has_newline_concat).
  assert (count_lines (unlines lines) = length (points inFile)) as Hcount.
  { rewrite count_lines_unlines.
    - unfold lines. rewrite length_map. apply length_concat_singletons.
      eapply Forall_impl; [exact Hlayout |]. by intros ? [? _].
    - apply Forall_map, list.Forall_forall. intros record _. simpl.
      apply has_newline_concat. by apply csv_cells_one_line. }
  exists (unlines lines). rewrite get_header_concat.
  split; [done |]. split; [|done].
  rewrite !count_lines_append, (count_lines_no_newline _ Hhead), Hcount.
  simpl. lia.
Qed.

(** C4 (amended). A scale that is zero or negative is not rejected:
    no step of the codec checks the scale.  For every scale and
    offset, the loop that encodes the heights returns the binary64
    quotient [(height - offset) / scale] of every height, and the
    loop that formats a point record returns the line of its values,
    the values named X, Y and Z decoded as [raw * scale + offset]. *)
Theorem scale_is_never_checked :
  (forall (batch_file : FileInfo) (heights : list float),
     Merge.rescale_loop batch_file (seq 0 (length heights)) heights
     = Returns (map (fun h => encode h (z_scale batch_file) (z_offset batch_file))
                    heights)) /\
  (forall (file_info : FileInfo) (record : list num),
     header_size file_info = Z.of_nat (length (attributes file_info)) ->
     length record = length (attributes file_info) ->
     Writer.format_record str file_info record 0 EmptyString
     = Returns (String.concat ","
                  (csv_cells str file_info (attributes file_info) record))).
Proof.
  split; [apply rescale_loop_map |].
  intros file_info record Hsize Hlen.
  by rewrite (format_record_cells str file_info record (attributes file_info) 0).
Qed.

End WriterLines.

Lemma las_to_csv_line_count_witness :
  exists rows,
    fst (Writer.las_to_csv Text.show_num Laspy.close Scenario.three_points)
    = get_header (open_read_stream Scenario.three_points)
      +:+ String newline EmptyString +:+ rows /\
    count_lines (fst (Writer.las_to_csv Text.show_num Laspy.close
                        Scenario.three_points))
    = length (points Scenario.three_points) + 1 /\
    has_newline (get_header (open_read_stream Scenario.three_points)) = false /\
    count_lines rows = length (points Scenario.three_points) /\
    snd (Writer.las_to_csv Text.show_num Laspy.close Scenario.three_points)
    = Laspy.close Scenario.three_points.
Proof.
  apply (las_to_csv_line_count Text.show_num Laspy.close show_num_one_line
           Scenario.three_points).
  - repeat constructor.
  - repeat constructor.
Defined.

(** Scenario 2: three points with the attributes X, Y and Z give four
    lines, the first of which is the header, and the call returns. *)
Example scenario2_csv :
  Writer.las_to_csv Text.show_num Laspy.close Scenario.three_points
  = ("X,Y,Z" +:+ String newline "329999.8947,4839000.0062,0.6710"
     +:+ String newline "330002.2338,4838999.6872,0.6170"
     +:+ String newline "330026.3268,4839042.6920,0.4170"
     +:+ String newline EmptyString, Returns tt).
Proof. vm_compute. reflexivity. Qed.

(** C4 as stated fails.  With the scales of a file whose X and Z
    scales are zero and whose Y scale is negative, the record of raw
    values 23391, -3190 and 6170 is formatted as the values
    329999.8947, 4839000.3252 and 0, whatever prints them, the
    heights 0.67103 and 0.617 are encoded as infinity, and the merge
    returns with the least 32-bit integer stored for both: no
    operation fails. *)
Lemma bad_scale_is_not_rejected :
  scale (header Scenario.bad_scale) = (0.0, -0.0001, 0.0)%float /\
  Merge.rescale_loop (open_read_stream Scenario.bad_scale) (seq 0 2)
    [0.67103; 0.617]%float
  = Returns [infinity; infinity] /\
  (exists f,
     Merge.batch_merge Text.parse_decimal Laspy.set_Z
       (Scenario.response_header :: Scenario.two_rows) "H2013" Scenario.bad_scale
     = Returns f /\
     las_Z f = [NInt Laspy.int32_min; NInt Laspy.int32_min]) /\
  forall str : num -> string,
    Writer.format_record str (open_read_stream Scenario.bad_scale)
      [NInt 23391; NInt (-3190); NInt 6170] 0 EmptyString
    = Returns (str (NFloat 329999.8947) +:+ "," +:+
               str (NFloat 4839000.3252) +:+ "," +:+ str (NFloat 0)).
Proof.
  split; [reflexivity |]. split; [vm_compute; reflexivity |].
  split; [eexists; split; vm_compute; reflexivity |].
  intros str.
  rewrite (format_record_cells str _ _ ["X"; "Y"; "Z"] 0) by reflexivity.
  assert (decode (to_float (NInt 23391))
            (x_scale (open_read_stream Scenario.bad_scale))
            (x_offset (open_read_stream Scenario.bad_scale))
          = 329999.8947%float) as Ex by (vm_compute; reflexivity).
  assert (decode (to_float (NInt (-3190)))
            (y_scale (open_read_stream Scenario.bad_scale))
            (y_offset (open_read_stream Scenario.bad_scale))
          = 4839000.3252%float) as Ey by (vm_compute; reflexivity).
  assert (decode (to_float (NInt 6170))
            (z_scale (open_read_stream Scenario.bad_scale))
            (z_offset (open_read_stream Scenario.bad_scale))
          = 0%float) as Ez by (vm_compute; reflexivity).
  change (Returns
            (str (NFloat (decode (to_float (NInt 23391))
                            (x_scale (open_read_stream Scenario.bad_scale))
                            (x_offset (open_read_stream Scenario.bad_scale))))
             +:+ "," +:+
             str (NFloat (decode (to_float (NInt (-3190)))
                            (y_scale (open_read_stream Scenario.bad_scale))
                            (y_offset (open_read_stream Scenario.bad_scale))))
             +:+ "," +:+
             str (NFloat (decode (to_float (NInt 6170))
                            (z_scale (open_read_stream Scenario.bad_scale))
                            (z_offset (open_read_stream Scenario.bad_scale)))))
          = Returns (str (NFloat 329999.8947) +:+ "," +:+
                     str (NFloat 4839000.3252) +:+ "," +:+ str (NFloat 0))).
  by rewrite Ex, Ey, Ez.
Qed.

(** ** The text written by [las_to_csv_sub] *)

Lemma coordinate_name_eqb (name : string) :
  ~ coordinate_name name ->
  String.eqb name "X" = false /\ String.eqb name "Y" = false /\
  String.eqb name "Z" = false.
Proof.
  unfold coordinate_name. intros Hname.
  repeat split; apply String.eqb_neq; intros ->; tauto.
Qed.

Section SubWriterText.

Variable str : num -> string.
Variable close : File -> outcome unit.
Variable utm_zone : string.

(** The text of the rows when every record is formatted as [row]
    tells. *)
Lemma sub_write_points_list_rows (file_info : FileInfo) (row : list num -> string)
    (points_list : list (list num)) : forall out,
  Forall (fun record =>
            SubWriter.format_record str file_info utm_zone record 0 EmptyString
            = Returns (row record)) points_list ->
  SubWriter.write_points_list str file_info utm_zone points_list out
  = (out +:+ unlines (map row points_list), Returns tt).
Proof.
  induction points_list as [|record rest IH]; intros out Hrows.
  - simpl. by rewrite append_nil_r.
  - apply Forall_cons in Hrows as [Hrow Hrest].
    cbn [SubWriter.write_points_list]. rewrite Hrow.
    rewrite IH by done. simpl. by rewrite !append_assoc.
Qed.

Lemma sub_write_points_rows (file_info : FileInfo) (row : list num -> string)
    (pts : list (list (list num))) : forall out,
  Forall (Forall (fun record =>
            SubWriter.format_record str file_info utm_zone record 0 EmptyString
            = Returns (row record))) pts ->
  SubWriter.write_points str file_info utm_zone pts out
  = (out +:+ unlines (map row (concat pts)), Returns tt).
Proof.
  induction pts as [|points_list rest IH]; intros out Hrows.
  - simpl. by rewrite append_nil_r.
  - apply Forall_cons in Hrows as [Hrow Hrest].
    cbn [SubWriter.write_points].
    rewrite (sub_write_points_list_rows file_info row) by done.
    rewrite IH by done. simpl. by rewrite map_app, unlines_app, !append_assoc.
Qed.

Lemma las_to_csv_sub_rows (inFile : File) (row : list num -> string) :
  Forall (Forall (fun record =>
            SubWriter.format_record str (open_read_stream inFile) utm_zone
              record 0 EmptyString = Returns (row record))) (points inFile) ->
  SubWriter.las_to_csv_sub str close inFile utm_zone
  = (unlines ("utm_e,utm_n,height,utm_z" :: map row (concat (points inFile))),
     close inFile).
Proof.
  intros Hrows. unfold SubWriter.las_to_csv_sub.
  rewrite (sub_write_points_rows _ row) by done.
  simpl. by rewrite !append_assoc.
Qed.

Lemma sub_format_record_standard (file_info : FileInfo) (record : list num)
    (name3 : string) (more : list string) :
  attributes file_info = "X" :: "Y" :: "Z" :: name3 :: more ->
  ~ coordinate_name name3 ->
  (forall name4, more !! 0 = Some name4 -> ~ coordinate_name name4) ->
  length record = length (attributes file_info) ->
  SubWriter.format_record str file_info utm_zone record 0 EmptyString
  = Returns (String.concat "," (xyz_cells str file_info record ++ [utm_zone])).
Proof.
  intros Hatts Hname3 Hname4 Hlen. rewrite Hatts in Hlen.
  destruct record as [|x [|y [|z [|a3 rest]]]]; try done.
  apply coordinate_name_eqb in Hname3 as (H3x & H3y & H3z).
  cbn [SubWriter.format_record]. unfold getitem. rewrite Hatts.
  cbn [lookup list_lookup]. unfold mbind, outcome_bind, bind.
  cbn [String.eqb Ascii.eqb Bool.eqb Nat.ltb Nat.leb Nat.eqb].
  rewrite H3x, H3y, H3z.
  assert (String.concat "," (xyz_cells str file_info (x :: y :: z :: a3 :: rest)
                               ++ [utm_zone])
          = (((((((EmptyString +:+ str (NFloat (decode (to_float x)
                     (x_scale file_info) (x_offset file_info)))) +:+ ",")
               +:+ str (NFloat (decode (to_float y)
                     (y_scale file_info) (y_offset file_info)))) +:+ ",")
               +:+ str (NFloat (decode (to_float z)
                     (z_scale file_info) (z_offset file_info)))) +:+ ",")
               +:+ utm_zone)) as ->.
  { cbn [xyz_cells app]. rewrite !concat_cons_cons. cbn [String.concat].
    by rewrite !append_assoc. }
  destruct rest as [|a4 rest]; [done |].
  destruct more as [|name4 more]; [done |].
  apply (coordinate_name_eqb name4) in Hname4 as (H4x & H4y & H4z); [|done].
  cbn [SubWriter.format_record]. unfold getitem. rewrite Hatts.
  cbn [lookup list_lookup]. unfold mbind, outcome_bind, bind.
  by rewrite H4x, H4y, H4z.
Qed.

(** X5. For a file in the layout of the LAS library whose attributes
    are X, Y, Z and then at least one more, the fourth and the fifth
    not being called X, Y or Z, [las_to_csv_sub] writes the line
    [utm_e,utm_n,height,utm_z] and then, for every point record in
    order, the decoded X, Y and Z and the zone, joined by commas; the
    other attributes are not written.  The call then closes the input
    stream, and its outcome is the outcome of that close. *)
Theorem las_to_csv_sub_text (inFile : File) (name3 : string)
    (more : list string)
    (Hformat : point_format inFile = "X" :: "Y" :: "Z" :: name3 :: more)
    (Hname3 : ~ coordinate_name name3)
    (Hname4 : forall name4, more !! 0 = Some name4 -> ~ coordinate_name name4)
    (Hlayout : well_formed inFile) :
  fst (SubWriter.las_to_csv_sub str close inFile utm_zone)
  = unlines
      ("utm_e,utm_n,height,utm_z"
       :: map (fun record =>
                 String.concat ","
                   (xyz_cells str (open_read_stream inFile) record
                    ++ [utm_zone]))
              (concat (points inFile))) /\
  snd (SubWriter.las_to_csv_sub str close inFile utm_zone) = close inFile.
Proof.
  destruct (open_read_stream_schema inFile) as [Hatts _].
  rewrite (las_to_csv_sub_rows inFile
             (fun record => String.concat ","
                (xyz_cells str (open_read_stream inFile) record ++ [utm_zone])));
    [done |].
  eapply Forall_impl; [exact Hlayout |]. intros points_list [_ Hrecords].
  eapply Forall_impl; [exact Hrecords |]. intros record Hlen. simpl.
  apply (sub_format_record_standard _ _ name3 more); try done.
  - by rewrite Hatts.
  - by rewrite Hatts.
Qed.

Lemma sub_format_record_three (file_info : FileInfo) (record : list num) :
  attributes file_info = ["X"; "Y"; "Z"] ->
  length record = length (attributes file_info) ->
  SubWriter.format_record str file_info utm_zone record 0 EmptyString
  = Returns (String.concat "," (xyz_cells str file_info record) +:+ ",").
Proof.
  intros Hatts Hlen. rewrite Hatts in Hlen.
  destruct record as [|x [|y [|z [|a3 rest]]]]; try done.
  cbn [SubWriter.format_record]. unfold getitem. rewrite Hatts.
  cbn [lookup list_lookup]. unfold mbind, outcome_bind, bind.
  cbn [String.eqb Ascii.eqb Bool.eqb Nat.ltb Nat.leb Nat.eqb].
  cbn [xyz_cells]. rewrite !concat_cons_cons. cbn [String.concat].
  by rewrite !append_assoc.
Qed.

(** X6. For a file whose attributes are exactly X, Y and Z,
    [las_to_csv_sub] writes no zone: every row is the three decoded
    coordinates, each followed by a comma, so a row has an empty fourth
    field where the header announces [utm_z].  The call then closes the
    input stream, and its outcome is the outcome of that close. *)
Theorem las_to_csv_sub_three_attributes (inFile : File)
    (Hformat : point_format inFile = ["X"; "Y"; "Z"])
    (Hlayout : well_formed inFile) :
  fst (SubWriter.las_to_csv_sub str close inFile utm_zone)
  = unlines
      ("utm_e,utm_n,height,utm_z"
       :: map (fun record =>
                 String.concat ","
                   (xyz_cells str (open_read_stream inFile) record)
                 +:+ ",")
              (concat (points inFile))) /\
  snd (SubWriter.las_to_csv_sub str close inFile utm_zone) = close inFile.
Proof.
  destruct (open_read_stream_schema inFile) as [Hatts _].
  rewrite (las_to_csv_sub_rows inFile
             (fun record => String.concat ","
                (xyz_cells str (open_read_stream inFile) record) +:+ ","));
    [done |].
  eapply Forall_impl; [exact Hlayout |]. intros points_list [_ Hrecords].
  eapply Forall_impl; [exact Hrecords |]. intros record Hlen. simpl.
  apply sub_format_record_three; by rewrite Hatts.
Qed.

End SubWriterText.

Lemma las_to_csv_sub_text_witness :
  fst (SubWriter.las_to_csv_sub Text.show_num Laspy.close
         Sample.five_attributes "ON-9")
  = unlines
      ("utm_e,utm_n,height,utm_z"
       :: map (fun record =>
                 String.concat ","
                   (xyz_cells Text.show_num
                      (open_read_stream Sample.five_attributes) record
                    ++ ["ON-9"]))
              (concat (points Sample.five_attributes))) /\
  snd (SubWriter.las_to_csv_sub Text.show_num Laspy.close
         Sample.five_attributes "ON-9")
  = Laspy.close Sample.five_attributes.
Proof.
  apply (las_to_csv_sub_text Text.show_num Laspy.close "ON-9"
           Sample.five_attributes "intensity" ["flag_byte"]).
  - reflexivity.
  - unfold coordinate_name. intros [H|[H|H]]; discriminate.
  - intros name4 [= <-]. unfold coordinate_name. intros [H|[H|H]]; discriminate.
  - repeat constructor.
Defined.

Example five_attributes_sub :
  SubWriter.las_to_csv_sub Text.show_num Laspy.close Sample.five_attributes "ON-9"
  = ("utm_e,utm_n,height,utm_z"
     +:+ String newline "329999.8947,4839000.0062,0.6710,ON-9"
     +:+ String newline "330002.2338,4838999.6872,0.6170,ON-9"
     +:+ String newline EmptyString, Returns tt).
Proof. vm_compute. reflexivity. Qed.

Lemma las_to_csv_sub_three_attributes_witness :
  fst (SubWriter.las_to_csv_sub Text.show_num Laspy.close
         Scenario.two_points "ON-9")
  = unlines
      ("utm_e,utm_n,height,utm_z"
       :: map (fun record =>
                 String.concat ","
                   (xyz_cells Text.show_num
                      (open_read_stream Scenario.two_points) record)
                 +:+ ",")
              (concat (points Scenario.two_points))) /\
  snd (SubWriter.las_to_csv_sub Text.show_num Laspy.close
         Scenario.two_points "ON-9")
  = Laspy.close Scenario.two_points.
Proof.
  apply (las_to_csv_sub_three_attributes Text.show_num Laspy.close "ON-9"
           Scenario.two_points).
  - reflexivity.
  - repeat constructor.
Defined.

Example two_points_sub :
  SubWriter.las_to_csv_sub Text.show_num Laspy.close Scenario.two_points "ON-9"
  = ("utm_e,utm_n,height,utm_z"
     +:+ String newline "329999.8947,4839000.0062,0.6710,"
     +:+ String newline "330002.2338,4838999.6872,0.6170,"
     +:+ String newline EmptyString, Returns tt).
Proof. vm_compute. reflexivity. Qed.

Section SubWriterLines.

Variable str : num -> string.
Variable close : File -> outcome unit.
Variable utm_zone : string.
Hypothesis str_one_line : forall v, has_newline (str v) = false.
Hypothesis zone_one_line : has_newline utm_zone = false.

Lemma sub_format_record_one_line (file_info : FileInfo) (record : list num) :
  forall index line,
    index + length record <= length (attributes file_info) ->
    has_newline line = false ->
    exists line',
      SubWriter.format_record str file_info utm_zone record index line
      = Returns line' /\
      has_newline line' = false.
Proof using str_one_line zone_one_line.
  induction record as [|attribute record IH]; intros index line Hlen Hline.
  - by exists line.
  - simpl in Hlen. cbn [SubWriter.format_record]. unfold getitem.
    destruct (lookup_lt_is_Some_2 (attributes file_info) index) as [name ->];
      [lia |].
    unfold mbind, outcome_bind, bind.
    assert (forall text, has_newline text = false ->
              exists line',
                SubWriter.format_record str file_info utm_zone record (S index)
                  (if Nat.ltb index 3 then (line +:+ text) +:+ ","
                   else line +:+ text) = Returns line' /\
                has_newline line' = false) as Hnext.
    { intros text Htext. apply IH; [lia |].
      destruct (Nat.ltb index 3); rewrite ?has_newline_append, Hline, Htext; done. }
    destruct (String.eqb name "X"); [by apply Hnext |].
    destruct (String.eqb name "Y"); [by apply Hnext |].
    destruct (String.eqb name "Z"); [by apply Hnext |].
    destruct (Nat.eqb index 3); [by apply Hnext | by exists line].
Qed.

(** X7. Whatever the attributes of the file are, [las_to_csv_sub]
    writes, for a file of [n] point records in the layout of the LAS
    library, the line [utm_e,utm_n,height,utm_z] and then exactly [n]
    lines, when the printed values and the zone hold no line break.
    The call then closes the input stream, and its outcome is the
    outcome of that close. *)
Theorem las_to_csv_sub_line_count (inFile : File)
    (Hlayout : well_formed inFile) :
  exists rows,
    fst (SubWriter.las_to_csv_sub str close inFile utm_zone)
    = "utm_e,utm_n,height,utm_z" +:+ String newline EmptyString
      +:+ unlines rows /\
    length rows = length (points inFile) /\
    count_lines (fst (SubWriter.las_to_csv_sub str close inFile utm_zone))
    = length (points inFile) + 1 /\
    snd (SubWriter.las_to_csv_sub str close inFile utm_zone) = close inFile.
Proof using str_one_line zone_one_line.
  destruct (open_read_stream_schema inFile) as [Hatts _].
  pose (row := fun record : list num =>
          match SubWriter.format_record str (open_read_stream inFile) utm_zone
                  record 0 EmptyString with
          | Returns line => line
          | Raises _ => EmptyString
          end).
  assert (Forall (Forall (fun record =>
            (SubWriter.format_record str (open_read_stream inFile) utm_zone
               record 0 EmptyString = Returns (row record)) /\
            has_newline (row record) = false)) (points inFile)) as Hrows.
  { eapply Forall_impl; [exact Hlayout |]. intros points_list [_ Hrecords].
    eapply Forall_impl; [exact Hrecords |]. intros record Hlen. simpl in Hlen.
    destruct (sub_format_record_one_line (open_read_stream inFile) record 0
                EmptyString) as (line & E & Hline); [rewrite Hatts; simpl; lia | done |].
    unfold row. by rewrite E. }
  exists (map row (concat (points inFile))).
  assert (length (map row (concat (points inFile))) = length (points inFile))
    as Hcount.
  { rewrite length_map. apply length_concat_singletons.
    eapply Forall_impl; [exact Hlayout |]. by intros ? [? _]. }
  rewrite (las_to_csv_sub_rows str close utm_zone inFile row).
  - cbn [fst snd unlines]. split; [done |]. split; [done |]. split; [|done].
    rewrite !count_lines_append, count_lines_unlines, Hcount; [simpl; lia |].
    apply Forall_map. apply Forall_concat_all.
    eapply Forall_impl; [exact Hrows |]. intros points_list Hrecords.
    eapply Forall_impl; [exact Hrecords |]. by intros ? [_ ?].
  - eapply Forall_impl; [exact Hrows |]. intros points_list Hrecords.
    eapply Forall_impl; [exact Hrecords |]. by intros ? [? _].
Qed.

End SubWriterLines.

Lemma las_to_csv_sub_line_count_witness :
  exists rows,
    fst (SubWriter.las_to_csv_sub Text.show_num Laspy.close
           Scenario.three_points "ON-9")
    = "utm_e,utm_n,height,utm_z" +:+ String newline EmptyString
      +:+ unlines rows /\
    length rows = length (points Scenario.three_points) /\
    count_lines (fst (SubWriter.las_to_csv_sub Text.show_num Laspy.close
                        Scenario.three_points "ON-9"))
    = length (points Scenario.three_points) + 1 /\
    snd (SubWriter.las_to_csv_sub Text.show_num Laspy.close
           Scenario.three_points "ON-9")
    = Laspy.close Scenario.three_points.
Proof.
  apply (las_to_csv_sub_line_count Text.show_num Laspy.close "ON-9"
           show_num_one_line).
  - reflexivity.
  - repeat constructor.
Defined.

(** ** The header line of a [FileInfo] with another [header_size] *)

Lemma get_header_loop_all_commas (header_size : Z) (atts : list string) :
  forall index head,
    (index + Z.of_nat (length atts) < header_size)%Z ->
    get_header_loop header_size atts index head
    = head +:+ String.concat EmptyString (map (fun att => att +:+ ",") atts).
Proof.
  induction atts as [|att atts IH]; intros index head Hsize.
  - simpl. by rewrite append_nil_r.
  - cbn [get_header_loop]. simpl length in Hsize.
    assert ((index + 1 <? header_size)%Z = true) as -> by (apply Z.ltb_lt; lia).
    rewrite IH by lia. cbn [map].
    destruct atts as [|att' atts].
    + cbn [map String.concat]. by rewrite append_nil_r, append_assoc.
    + cbn [map]. rewrite concat_cons_cons.
      change (EmptyString +:+ ?s) with s. by rewrite !append_assoc.
Qed.

Lemma get_header_loop_no_comma (header_size : Z) (atts : list string) :
  forall index head,
    (header_size <= index + 1)%Z ->
    get_header_loop header_size atts index head
    = head +:+ String.concat EmptyString atts.
Proof.
  induction atts as [|att atts IH]; intros index head Hsize.
  - simpl. by rewrite append_nil_r.
  - cbn [get_header_loop].
    assert ((index + 1 <? header_size)%Z = false) as -> by (apply Z.ltb_ge; lia).
    rewrite IH by lia.
    destruct atts as [|att' atts].
    + cbn [String.concat]. by rewrite append_nil_r.
    + rewrite concat_cons_cons.
      change (EmptyString +:+ ?s) with s. by rewrite !append_assoc.
Qed.

(** X8. A [FileInfo] whose [header_size] exceeds the number of its
    attributes gives a header line in which every name, the last one
    too, is followed by a comma. *)
Theorem get_header_trailing_comma (self : FileInfo)
    (Hsize : (Z.of_nat (length (attributes self)) < header_size self)%Z) :
  get_header self
  = String.concat EmptyString (map (fun att => att +:+ ",") (attributes self)).
Proof.
  unfold get_header. by rewrite get_header_loop_all_commas by lia.
Qed.

Lemma get_header_trailing_comma_witness :
  get_header {| num_points := 0; x_offset := 0; y_offset := 0; z_offset := 0;
                x_scale := 1; y_scale := 1; z_scale := 1;
                header_size := 4; attributes := ["X"; "Y"; "Z"] |}
  = "X,Y,Z,".
Proof.
  apply (get_header_trailing_comma
           {| num_points := 0; x_offset := 0; y_offset := 0; z_offset := 0;
              x_scale := 1; y_scale := 1; z_scale := 1;
              header_size := 4; attributes := ["X"; "Y"; "Z"] |}).
  simpl. lia.
Defined.

(** X9. A [FileInfo] whose [header_size] is at most one gives a header
    line without any comma: the names follow each other directly. *)
Theorem get_header_without_commas (self : FileInfo)
    (Hsize : (header_size self <= 1)%Z) :
  get_header self = String.concat EmptyString (attributes self).
Proof.
  unfold get_header. by rewrite get_header_loop_no_comma by lia.
Qed.

Lemma get_header_without_commas_witness :
  get_header {| num_points := 0; x_offset := 0; y_offset := 0; z_offset := 0;
                x_scale := 1; y_scale := 1; z_scale := 1;
                header_size := 0; attributes := ["X"; "Y"; "Z"] |}
  = "XYZ".
Proof.
  apply (get_header_without_commas
           {| num_points := 0; x_offset := 0; y_offset := 0; z_offset := 0;
              x_scale := 1; y_scale := 1; z_scale := 1;
              header_size := 0; attributes := ["X"; "Y"; "Z"] |}).
  simpl. lia.
Defined.

(** ** The service object across [setConversionType], [batch_call] and
    [single_point] *)

Section BatchFacts.

Import Service Batch.

Variable http_post : string -> gmap string pyval -> string -> outcome string.
Variable http_get : string -> gmap string pyval -> outcome string.

Lemma batch_call_object (self : WebService) (files : gmap string string)
    (in_file : string) :
  (batch_call http_post self files in_file).1.1
  = fst (setConversionType self "batch" (conversion self)).
Proof.
  unfold batch_call. destruct (files !! in_file); [|done].
  by destruct (http_post _ _ _).
Qed.

(** X10. Whatever its outcome, [batch_call] leaves the object with the
    upload URL as its service URL and with its conversion flag as its
    projection; the other fields keep their values.  A call of
    [single_point] that follows without overrides therefore goes to the
    upload URL and sends the conversion flag as the projection. *)
Theorem batch_call_overwrites_projection (self : WebService)
    (files : gmap string string) (in_file : string) :
  let self' := (batch_call http_post self files in_file).1.1 in
  (service_url self' = upload_url /\
   projection self' = conversion self /\
   conversion self' = conversion self /\
   lang self' = lang self /\
   westpos self' = westpos self /\
   model self' = model self /\
   frame self' = frame self /\
   epoch self' = epoch self /\
   tocsv self' = tocsv self) /\
  forall x y z : pyval,
    exists data,
      snd (single_point http_get self' x y z None no_overrides)
      = http_get upload_url data /\
      data !! "proj" = Some (PStr (conversion self)).
Proof.
  intros self'. unfold self'. rewrite batch_call_object.
  split; [repeat split |].
  intros x y z. eexists. split; [reflexivity |].
  apply (request_data_fields
           (apply_overrides (fst (setConversionType self "batch" (conversion self)))
              no_overrides) x y z).
Qed.

(** X11. When the input file exists and the service answers,
    [batch_call] has sent the content of the file to the upload URL,
    whatever the service URL of the object was, with exactly the form
    fields [model], [frame] and [epoch]; it returns a table whose rows
    all have the column count of the header, and it writes the text of
    the answer to [output.csv] when the object was created with
    [tocsv], and no file otherwise. *)
Theorem batch_call_answer (self : WebService) (files : gmap string string)
    (in_file content text : string) (post_fields : gmap string pyval)
    (Hfields : post_fields
               = <["epoch" := PStr (epoch self)]>
                 (<["frame" := PStr (frame self)]>
                 (<["model" := PStr (model self)]> ∅)))
    (Hfile : files !! in_file = Some content)
    (Hanswer : http_post upload_url post_fields content = Returns text) :
  dom post_fields = {["model"; "frame"; "epoch"]} /\
  exists header rows,
    (batch_call http_post self files in_file).2 = Returns (header :: rows) /\
    Response.parse_response text = Returns (header :: rows) /\
    Forall (fun row => length row = length header) rows /\
    (batch_call http_post self files in_file).1.2
    = if tocsv self then <["output.csv" := text]> files else files.
Proof.
  subst post_fields. split.
  { rewrite !dom_insert_L, dom_empty_L. set_solver. }
  destruct (split_from_cons newline EmptyString text) as (first_line & data & E).
  exists (split comma first_line),
         (filter (fun row => length row = length (split comma first_line))
                 (map (split comma) data)).
  assert (Response.parse_response text
          = Returns (split comma first_line
                     :: filter (fun row => length row
                                           = length (split comma first_line))
                               (map (split comma) data))) as Hparse.
  { change (split_from newline EmptyString text) with (split newline text) in E.
    unfold Response.parse_response. rewrite E. simpl.
    by rewrite (append_rows_filter _ []). }
  unfold batch_call. rewrite Hfile. simpl in *. rewrite Hanswer.
  split; [exact Hparse |]. split; [exact Hparse |]. split; [|done].
  apply list.Forall_forall. intros row Hin.
  by apply list_elem_of_filter in Hin as [? _].
Qed.

(** X12. [setConversionType] raises nothing for a type it does not
    know: it then keeps the service URL.  In every case it stores the
    projection, and the call of [single_point] that follows without an
    override of the projection goes to the URL that [setConversionType]
    returned, sends that projection, and sends the zone [ON-9] exactly
    when the projection is [plan]. *)
Theorem setConversionType_then_single_point (self : WebService)
    (type projection : string) (x y z : pyval) (o : Overrides)
    (Hoverride : o_projection o = None) :
  let self' := fst (setConversionType self type projection) in
  let url := snd (setConversionType self type projection) in
  (type <> "batch" -> type <> "CGG2013a" -> type <> "HT2_0_CGG2013a" ->
   url = service_url self) /\
  (type = "batch" -> url = upload_url) /\
  (type = "CGG2013a" -> url = CGG2013a_url) /\
  (type = "HT2_0_CGG2013a" -> url = HT2_0_CGG2013a_url) /\
  exists data,
    snd (single_point http_get self' x y z None o) = http_get url data /\
    data !! "proj" = Some (PStr projection) /\
    data !! "zone" = (if String.eqb projection "plan"
                      then Some (PStr "ON-9") else None) /\
    data !! "x" = Some x /\ data !! "y" = Some y /\ data !! "z" = Some z.
Proof.
  intros self' url. split; [|split; [|split; [|split]]].
  - intros H1 H2 H3. unfold url, setConversionType.
    apply String.eqb_neq in H1, H2, H3. by rewrite H1, H2, H3.
  - by intros ->.
  - by intros ->.
  - by intros ->.
  - eexists. split; [reflexivity |].
    unfold single_point, apply_overrides. rewrite Hoverride. simpl.
    unfold request_data. simpl.
    destruct (String.eqb projection "plan"); by simplify_map_eq.
Qed.

End BatchFacts.

Lemma batch_call_answer_witness :
  dom (<["epoch" := Service.PStr (Service.epoch Sample.wbservice)]>
       (<["frame" := Service.PStr (Service.frame Sample.wbservice)]>
       (<["model" := Service.PStr (Service.model Sample.wbservice)]>
          (∅ : gmap string Service.pyval))))
  = {["model"; "frame"; "epoch"]} /\
  exists header rows,
    (Batch.batch_call Sample.http_post Sample.wbservice Sample.files
       "prewb.temp.csv").2
    = Returns (header :: rows) /\
    Response.parse_response Scenario.response_text = Returns (header :: rows) /\
    Forall (fun row => length row = length header) rows /\
    (Batch.batch_call Sample.http_post Sample.wbservice Sample.files
       "prewb.temp.csv").1.2
    = if Service.tocsv Sample.wbservice
      then <["output.csv" := Scenario.response_text]> Sample.files
      else Sample.files.
Proof.
  apply (batch_call_answer Sample.http_post Sample.wbservice Sample.files
           "prewb.temp.csv" "utm_e,utm_n,height,utm_z" Scenario.response_text).
  - reflexivity.
  - reflexivity.
  - reflexivity.
Defined.

Lemma setConversionType_then_single_point_witness :
  let self' := fst (Batch.setConversionType Sample.wbservice "HT2_0_CGG2013a" "plan") in
  let url := snd (Batch.setConversionType Sample.wbservice "HT2_0_CGG2013a" "plan") in
  ("HT2_0_CGG2013a" <> "batch" -> "HT2_0_CGG2013a" <> "CGG2013a" ->
   "HT2_0_CGG2013a" <> "HT2_0_CGG2013a" ->
   url = Service.service_url Sample.wbservice) /\
  ("HT2_0_CGG2013a" = "batch" -> url = Batch.upload_url) /\
  ("HT2_0_CGG2013a" = "CGG2013a" -> url = Batch.CGG2013a_url) /\
  ("HT2_0_CGG2013a" = "HT2_0_CGG2013a" -> url = Batch.HT2_0_CGG2013a_url) /\
  exists data,
    snd (Service.single_point Sample.http_get self'
           (Service.PNum 329999.8947) (Service.PNum 4839000.0062)
           (Service.PNum 0.671) None Service.no_overrides)
    = Sample.http_get url data /\
    data !! "proj" = Some (Service.PStr "plan") /\
    data !! "zone" = (if String.eqb "plan" "plan"
                      then Some (Service.PStr "ON-9") else None) /\
    data !! "x" = Some (Service.PNum 329999.8947) /\
    data !! "y" = Some (Service.PNum 4839000.0062) /\
    data !! "z" = Some (Service.PNum 0.671).
Proof.
  apply (setConversionType_then_single_point Sample.http_get Sample.wbservice
           "HT2_0_CGG2013a" "plan" (Service.PNum 329999.8947)
           (Service.PNum 4839000.0062) (Service.PNum 0.671) Service.no_overrides).
  reflexivity.
Defined.

(** ** The lookup after the parser *)

(** X13. On the table that the parser of [batch_call] returns, the
    lookup of [extract_height] depends on the first line of the
    response only: when that line names the height code, the lookup
    returns one cell for every row that the parser kept, taken from
    the first column so named; otherwise it raises [IndexError].  No
    data row can make it fail. *)
Theorem extract_height_after_parse (text height_code : string) :
  exists first_line data,
    split newline text = first_line :: data /\
    let header := split comma first_line in
    let rows := filter (fun row => length row = length header)
                       (map (split comma) data) in
    match first_index height_code header with
    | Some j =>
        exists cells,
          (matrix ← Response.parse_response text;
           extract_height matrix height_code) = Returns cells /\
          Forall2 (fun (row : list string) cell => row !! j = Some cell) rows cells
    | None =>
        (matrix ← Response.parse_response text;
         extract_height matrix height_code) = Raises IndexError
    end.
Proof.
  destruct (split_from_cons newline EmptyString text) as (first_line & data & E).
  change (split_from newline EmptyString text) with (split newline text) in E.
  exists first_line, data. split; [done |]. intros header rows.
  assert (Response.parse_response text = Returns (header :: rows)) as ->.
  { unfold Response.parse_response. rewrite E. simpl.
    by rewrite (append_rows_filter _ []). }
  unfold mbind, outcome_bind, bind, extract_height. simpl. unfold getitem.
  rewrite matching_indices_head.
  destruct (first_index height_code header) as [j|] eqn:Hfirst; [|done].
  rewrite drop_0. apply column_cells.
  apply first_index_Some in Hfirst as [Hj _]. apply lookup_lt_Some in Hj.
  apply list.Forall_forall. intros row Hin.
  apply list_elem_of_filter in Hin as [-> _]. done.
Qed.

(** ** [CSVFileManager.load_points] *)

Section CsvFacts.

Context {A : Type}.

Lemma load_points_returns (readStream : list (list A)) :
  forall self : Csv.CSVFileManager A,
    Forall (fun row => 3 <= length row) readStream ->
    exists xs ys zs,
      Csv.load_points self readStream
      = ({| Csv.X_points := Csv.X_points self ++ xs;
            Csv.Y_points := Csv.Y_points self ++ ys;
            Csv.Z_points := Csv.Z_points self ++ zs |}, Returns tt) /\
      Forall2 (fun (row : list A) x => row !! 0 = Some x) readStream xs /\
      Forall2 (fun (row : list A) y => row !! 1 = Some y) readStream ys /\
      Forall2 (fun (row : list A) z => row !! 2 = Some z) readStream zs.
Proof.
  induction readStream as [|row rest IH]; intros self Hrows.
  - exists [], [], []. simpl. rewrite !app_nil_r. by destruct self.
  - apply Forall_cons in Hrows as [Hrow Hrest].
    destruct row as [|x [|y [|z row]]]; simpl in Hrow; try lia.
    destruct (IH (Csv.add_point self x y z) Hrest)
      as (xs & ys & zs & E & Hxs & Hys & Hzs).
    exists (x :: xs), (y :: ys), (z :: zs).
    cbn [Csv.load_points]. unfold getitem. simpl. rewrite E. simpl.
    rewrite <- !app_assoc. simpl.
    split; [done |]. by repeat split; constructor.
Qed.

Lemma load_points_stops (good : list (list A)) (bad : list A)
    (rest : list (list A)) :
  forall self : Csv.CSVFileManager A,
    Forall (fun row => 3 <= length row) good ->
    length bad < 3 ->
    Csv.load_points self (good ++ bad :: rest)
    = (fst (Csv.load_points self good), Raises IndexError).
Proof.
  induction good as [|row good IH]; intros self Hgood Hbad.
  - destruct bad as [|x [|y [|z bad]]]; simpl in Hbad; try lia; done.
  - apply Forall_cons in Hgood as [Hrow Hgood].
    destruct row as [|x [|y [|z row]]]; simpl in Hrow; try lia.
    simpl. by apply IH.
Qed.

(** X14. When every row that the reader yields has at least three
    fields, [load_points] returns and has appended to the three
    buffers, row by row, the first, the second and the third field of
    every row; the points added before are kept. *)
Theorem load_points_appends_rows (self : Csv.CSVFileManager A)
    (readStream : list (list A))
    (Hrows : Forall (fun row => 3 <= length row) readStream) :
  exists xs ys zs,
    Csv.load_points self readStream
    = ({| Csv.X_points := Csv.X_points self ++ xs;
          Csv.Y_points := Csv.Y_points self ++ ys;
          Csv.Z_points := Csv.Z_points self ++ zs |}, Returns tt) /\
    Forall2 (fun (row : list A) x => row !! 0 = Some x) readStream xs /\
    Forall2 (fun (row : list A) y => row !! 1 = Some y) readStream ys /\
    Forall2 (fun (row : list A) z => row !! 2 = Some z) readStream zs.
Proof. by apply load_points_returns. Qed.

(** X15. At the first row with fewer than three fields [load_points]
    raises [IndexError], and the load is partial: the points of the
    rows before that row are in the buffers, no field of that row and
    no later row is. *)
Theorem load_points_partial (self : Csv.CSVFileManager A)
    (good : list (list A)) (bad : list A) (rest : list (list A))
    (Hgood : Forall (fun row => 3 <= length row) good)
    (Hbad : length bad < 3) :
  Csv.load_points self (good ++ bad :: rest)
  = (fst (Csv.load_points self good), Raises IndexError) /\
  snd (Csv.load_points self good) = Returns tt /\
  length (Csv.X_points (fst (Csv.load_points self good)))
  = length (Csv.X_points self) + length good.
Proof.
  split; [by apply load_points_stops |].
  destruct (load_points_returns good self Hgood)
    as (xs & ys & zs & -> & Hxs & _). simpl.
  split; [done |]. rewrite length_app. f_equal.
  symmetry. by eapply Forall2_length.
Qed.

(** X16. The three buffers stay aligned: whatever rows [load_points]
    reads and whether it returns or raises, buffers of equal lengths
    before the call have equal lengths after it. *)
Theorem load_points_keeps_alignment (readStream : list (list A)) :
  forall self : Csv.CSVFileManager A,
    length (Csv.X_points self) = length (Csv.Y_points self) ->
    length (Csv.Y_points self) = length (Csv.Z_points self) ->
    let self' := fst (Csv.load_points self readStream) in
    length (Csv.X_points self') = length (Csv.Y_points self') /\
    length (Csv.Y_points self') = length (Csv.Z_points self').
Proof.
  induction readStream as [|row rest IH]; intros self Hxy Hyz; [done |].
  cbn [Csv.load_points]. unfold getitem.
  destruct row as [|x [|y [|z row]]]; try done.
  simpl. apply IH; simpl; rewrite !length_app; simpl; lia.
Qed.

End CsvFacts.

Lemma load_points_appends_rows_witness :
  exists xs ys zs,
    Csv.load_points Csv.init Scenario.two_rows
    = ({| Csv.X_points := [] ++ xs; Csv.Y_points := [] ++ ys;
          Csv.Z_points := [] ++ zs |}, Returns tt) /\
    Forall2 (fun (row : list string) x => row !! 0 = Some x) Scenario.two_rows xs /\
    Forall2 (fun (row : list string) y => row !! 1 = Some y) Scenario.two_rows ys /\
    Forall2 (fun (row : list string) z => row !! 2 = Some z) Scenario.two_rows zs.
Proof.
  apply (load_points_appends_rows Csv.init Scenario.two_rows).
  repeat constructor.
Defined.

Lemma load_points_partial_witness :
  Csv.load_points Csv.init
    ([["329999.8947"; "4839000.0062"; "0.671"]]
       ++ ["330002.2338"; "4838999.6872"] :: [["330026.3268"; "4839042.692"; "0.417"]])
  = (fst (Csv.load_points Csv.init [["329999.8947"; "4839000.0062"; "0.671"]]),
     Raises IndexError) /\
  snd (Csv.load_points Csv.init [["329999.8947"; "4839000.0062"; "0.671"]])
  = Returns tt /\
  length (Csv.X_points
            (fst (Csv.load_points Csv.init
                    [["329999.8947"; "4839000.0062"; "0.671"]])))
  = length (Csv.X_points (Csv.init (A := string))) + 1.
Proof.
  apply (load_points_partial Csv.init
           [["329999.8947"; "4839000.0062"; "0.671"]]
           ["330002.2338"; "4838999.6872"]
           [["330026.3268"; "4839042.692"; "0.417"]]).
  - repeat constructor.
  - simpl. lia.
Defined.

Lemma load_points_keeps_alignment_witness :
  let self' := fst (Csv.load_points
                      (Csv.add_point Csv.init "1" "2" "3")
                      [["4"; "5"; "6"]; ["7"]]) in
  length (Csv.X_points self') = length (Csv.Y_points self') /\
  length (Csv.Y_points self') = length (Csv.Z_points self').
Proof.
  apply (load_points_keeps_alignment [["4"; "5"; "6"]; ["7"]]
           (Csv.add_point Csv.init "1" "2" "3")); reflexivity.
Defined.

(** ** The identifiers and the version of [set_header_info] *)

Lemma string_take_length (n : nat) : forall s,
  String.length (Csv.string_take n s) = Nat.min n (String.length s).
Proof.
  induction n as [|n IH]; intros [|c s]; simpl; try done. by rewrite IH.
Qed.

Lemma spaces_length (n : nat) : String.length (Csv.spaces n) = n.
Proof. induction n as [|n IH]; simpl; [done | by rewrite IH]. Qed.

Lemma append_length (s t : string) :
  String.length (s +:+ t) = String.length s + String.length t.
Proof.
  induction s as [|c s IH]; [done |]. rewrite append_cons. simpl. by rewrite IH.
Qed.

Lemma string_take_all (n : nat) : forall s,
  String.length s <= n -> Csv.string_take n s = s.
Proof.
  induction n as [|n IH]; intros [|c s] Hlen; simpl in *; try done; [lia |].
  rewrite IH; [done | lia].
Qed.

Lemma string_take_append (n : nat) : forall s t,
  Csv.string_take n (s +:+ t)
  = Csv.string_take n s +:+ Csv.string_take (n - String.length s) t.
Proof.
  induction n as [|n IH]; intros [|c s] t; try done.
  rewrite append_cons. simpl. by rewrite IH.
Qed.

Lemma string_take_spaces (n m : nat) :
  Csv.string_take n (Csv.spaces m) = Csv.spaces (Nat.min n m).
Proof.
  revert m. induction n as [|n IH]; intros [|m]; simpl; try done. by rewrite IH.
Qed.

Lemma identifier32_length (s : string) :
  String.length (Csv.identifier32 s) = 32.
Proof.
  unfold Csv.identifier32.
  rewrite append_length, spaces_length, string_take_length. lia.
Qed.

(** X17. The identifier stored for a software or system name has
    exactly 32 characters: it is the name followed by 32 spaces, cut
    after 32 characters.  Formatting it again changes nothing. *)
Theorem identifier32_pads_and_cuts (s : string) :
  String.length (Csv.identifier32 s) = 32 /\
  Csv.identifier32 s = Csv.string_take 32 (s +:+ Csv.spaces 32) /\
  Csv.identifier32 (Csv.identifier32 s) = Csv.identifier32 s.
Proof.
  split; [apply identifier32_length |]. split.
  - unfold Csv.identifier32.
    rewrite string_take_append, string_take_spaces, string_take_length.
    do 2 f_equal. lia.
  - unfold Csv.identifier32 at 1.
    rewrite (string_take_all 32 (Csv.identifier32 s))
      by (rewrite identifier32_length; lia).
    rewrite identifier32_length. simpl. by rewrite append_nil_r.
Qed.

Lemma split_from_length (sep : ascii) (s : string) : forall cur,
  length (split_from sep cur s) = S (count_char sep s).
Proof.
  induction s as [|c s IH]; intros cur; simpl; [done |].
  destruct (Ascii.eqb c sep); simpl; by rewrite IH.
Qed.

(** X18. The version is accepted exactly when it holds one dot: then
    its two parts hold no dot and give the version back when a dot is
    put between them.  Any other version raises [ValueError]. *)
Theorem version_parts_one_dot (_version : string) :
  match Csv.version_parts _version with
  | Returns (_major, _minor) =>
      count_char "." _version = 1 /\
      _version = _major +:+ "." +:+ _minor /\
      has_char "." _major = false /\ has_char "." _minor = false
  | Raises e => e = ValueError /\ count_char "." _version <> 1
  end.
Proof.
  unfold Csv.version_parts.
  pose proof (split_from_length "." _version EmptyString) as Hlen.
  pose proof (concat_split_from "." _version EmptyString) as Hjoin.
  pose proof (split_from_fields_clean "." _version EmptyString eq_refl) as Hclean.
  change (EmptyString +:+ _version) with _version in Hjoin.
  fold (split "." _version) in Hlen, Hjoin, Hclean.
  destruct (split "." _version) as [|_major [|_minor [|third parts]]];
    simpl in Hlen.
  - done.
  - split; [done | lia].
  - split; [lia |]. split; [by rewrite <- Hjoin at 1 |].
    apply Forall_cons in Hclean as [Hmajor Hclean].
    by apply Forall_cons in Hclean as [Hminor _].
  - split; [done | lia].
Qed.

Example version_1_2 : Csv.version_parts "1.2" = Returns ("1", "2").
Proof. reflexivity. Qed.

Example version_1_2_3 : Csv.version_parts "1.2.3" = Raises ValueError.
Proof. reflexivity. Qed.
